(** * intercom_test: flattening nested lists and filtering customers by distance

    A shallow embedding of [question_2/flattenlist.py] and
    [question_3/closecustomers.py] (Python 2), and the properties of both
    that the specification states.

    Definitions:
    - [FlattenList]: the work-list loop of [flatten_list] over Python values
      that are either a list or anything else.
    - [PyRuntime]: what closecustomers.py takes from Python: exceptions, the
      warning log, decoded JSON values and the builtins applied to them.
      The JSON decoder, the float parser and formatter, and [sin], [cos]
      and [acos] of the C library are parameters; float arithmetic is
      binary64.
    - [CloseCustomers]: validation, parsing, great-circle distance, the
      range filter and the report.
    - [FlattenRuns]: the states the loop of [flatten_list] passes through.
    - [Program]: [get_file_contents] and [main], over the files that can
      be read.

    Theorems:
    - [FlattenListFacts]: the loop returns the leaves in pre-order and
      terminates.
    - [CloseCustomersFacts]: what validation and parsing do on each kind of
      record, symmetry of [distance], the filter and the report, and the
      inputs on which [distance], [validate_customer] and
      [parse_customer_data] raise.
    - [FlattenRunsFacts]: the number of iterations, the invariant of the
      loop, and how the output follows the shape of the input.
    - [ProgramFacts]: the log and the exceptions of validation and parsing,
      how parsing and filtering compose, and how [main] ends. *)

From Stdlib Require Import String Ascii.
From Stdlib Require Import List Arith Lia ZArith Bool.
From Stdlib Require Import Wellfounded Permutation Sorted.
From Stdlib Require Import Floats DecimalString.
Import ListNotations.

Set Implicit Arguments.
Set Warnings "-register-all".

(* ===================================================================== *)
(** * question_2/flattenlist.py                                           *)
(* ===================================================================== *)

Module FlattenList.

Section Flatten.

(** The values for which [isinstance(v, list)] is false. *)
Variable A : Type.

(** A Python value as [flatten_list] sees it: a list of values, or a value
    that is not a list. *)
Inductive pyobj : Type :=
| Leaf (a : A)
| PyList (items : list pyobj).

(** The induction principle that reaches the items of a list. *)
Fixpoint pyobj_rect_items (P : pyobj -> Prop)
    (HLeaf : forall a, P (Leaf a))
    (HList : forall items, Forall P items -> P (PyList items))
    (x : pyobj) {struct x} : P x :=
  match x with
  | Leaf a => HLeaf a
  | PyList items =>
      HList items
        ((fix all (l : list pyobj) : Forall P l :=
            match l with
            | [] => Forall_nil P
            | y :: l' =>
                Forall_cons y (pyobj_rect_items HLeaf HList y) (all l')
            end) items)
  end.

(** ** What the specification asks for *)

(** The leaves in depth-first, left-to-right order. *)
Fixpoint preorder_leaves (x : pyobj) : list A :=
  match x with
  | Leaf a => [a]
  | PyList items => flat_map preorder_leaves items
  end.

(** The number of leaves. *)
Fixpoint count_leaves (x : pyobj) : nat :=
  match x with
  | Leaf _ => 1
  | PyList items => list_sum (map count_leaves items)
  end.

(** Every element of a list is a leaf: the list is already flat. *)
Definition is_leaf (x : pyobj) : bool :=
  match x with Leaf _ => true | PyList _ => false end.

(** A flat Python list holding the given values. *)
Definition flat_list (l : list A) : pyobj := PyList (map Leaf l).

(** A nesting that holds no leaf at all, such as [[]] or [[[], [[]]]]. *)
Fixpoint hollow (x : pyobj) : bool :=
  match x with
  | Leaf _ => false
  | PyList items => forallb hollow items
  end.

(** Removes every hollow element, at every depth. *)
Fixpoint prune (x : pyobj) : pyobj :=
  match x with
  | Leaf a => Leaf a
  | PyList items =>
      PyList
        ((fix keep (l : list pyobj) : list pyobj :=
            match l with
            | [] => []
            | y :: l' => if hollow y then keep l' else prune y :: keep l'
            end) items)
  end.

(** ** The code *)

(** [stack.pop()]: the last element of a Python list and the list without
    it. On the empty list Python raises IndexError; the loop guard
    [len(stack) > 0] keeps the call away from it. *)
Fixpoint pop (X : Type) (l : list X) : option (list X * X) :=
  match l with
  | [] => None
  | x :: t =>
      match t with
      | [] => Some ([], x)
      | _ :: _ =>
          match pop t with
          | Some (t', y) => Some (x :: t', y)
          | None => None
          end
      end
  end.

(** [xrange(n-1, -1, -1)]: the indices n-1, n-2, ..., 0. *)
Definition xrange_down (n : nat) : list nat := rev (seq 0 n).

(** Lines 24-25: [for index in xrange(len(current_element)-1, -1, -1):
    stack.append(current_element[index])]. Every index of the range is
    below the length, so the subscript never raises. *)
Definition push_from_end (stack current_element : list pyobj) : list pyobj :=
  fold_left
    (fun stack index =>
       match nth_error current_element index with
       | Some item => stack ++ [item]
       | None => stack
       end)
    (xrange_down (length current_element)) stack.

(** The elements an index list selects from [current_element], in the
    order of the indices. *)
Definition picks (current_element : list pyobj) (indices : list nat)
  : list pyobj :=
  flat_map
    (fun i =>
       match nth_error current_element i with Some x => [x] | None => [] end)
    indices.

(** The two local variables of [flatten_list]. *)
Record state : Type := State { stack : list pyobj; result : list A }.

(** Lines 21-27: one iteration of the [while] loop. *)
Definition loop_body (st : state) : option state :=
  match pop (stack st) with
  | None => None
  | Some (rest, current_element) =>
      match current_element with
      | PyList items =>
          Some (State (push_from_end rest items) (result st))
      | Leaf a =>
          Some (State rest (result st ++ [a]))
      end
  end.

(** Lines 20-28: the loop, with a bound on the number of iterations; [None]
    when the bound is reached before the stack is empty. *)
Fixpoint while_loop (fuel : nat) (st : state) : option (list A) :=
  match stack st with
  | [] => Some (result st)
  | _ :: _ =>
      match fuel with
      | O => None
      | S fuel' =>
          match loop_body st with
          | Some st' => while_loop fuel' st'
          | None => None
          end
      end
  end.

(** Lines 18-19. *)
Definition initial (input_list : pyobj) : state := State [input_list] [].

Definition flatten_list_within (fuel : nat) (input_list : pyobj)
  : option (list A) :=
  while_loop fuel (initial input_list).

(** [flatten_list(input_list)] returns [output]. *)
Definition flatten_list_returns (input_list : pyobj) (output : list A) : Prop :=
  exists fuel, flatten_list_within fuel input_list = Some output.

(** The loop's transition relation: [next st' st] when an iteration that
    starts in [st] ends in [st']. *)
Definition next (st' st : state) : Prop := loop_body st = Some st'.

(** The size of what is left to visit: one for each leaf and one for each
    list, over the whole stack. *)
Fixpoint weight (x : pyobj) : nat :=
  match x with
  | Leaf _ => 1
  | PyList items => S (list_sum (map weight items))
  end.

Definition stack_weight (s : list pyobj) : nat := list_sum (map weight s).

(** The leaves still to come, in the order the loop will emit them. *)
Definition pending (s : list pyobj) : list A :=
  flat_map preorder_leaves (rev s).

End Flatten.

Arguments Leaf {A} a.
Arguments PyList {A} items.
Arguments State {A} stack result.

End FlattenList.

(* ===================================================================== *)
(** * The Python runtime that closecustomers.py runs on                   *)
(* ===================================================================== *)

Module PyRuntime.

(** The exceptions the builtins called by closecustomers.py raise.
    UnicodeEncodeError is what Python 2 raises when a [unicode] string that
    is not ASCII is turned into a [str]; RuntimeError is "maximum recursion
    depth exceeded", which the JSON decoder raises on text nested too
    deeply. *)
Inductive exception : Type :=
| ValueError
| TypeError
| OverflowError
| KeyError
| UnicodeEncodeError
| RuntimeError.

(** What a call ends in. *)
Inductive outcome (T : Type) : Type :=
| Returns (v : T)
| Raises (e : exception).

Arguments Returns {T} v.
Arguments Raises {T} e.

Definition exception_eqb (a b : exception) : bool :=
  match a, b with
  | ValueError, ValueError | TypeError, TypeError
  | OverflowError, OverflowError | KeyError, KeyError
  | UnicodeEncodeError, UnicodeEncodeError
  | RuntimeError, RuntimeError => true
  | _, _ => false
  end.

(** [isinstance(e, exc)], which is what [except exc] tests:
    UnicodeEncodeError is a subclass of ValueError. *)
Definition is_instance (e exc : exception) : bool :=
  match e, exc with
  | UnicodeEncodeError, ValueError => true
  | _, _ => exception_eqb e exc
  end.

(** Calls that only return or raise ([distance], [get_customers_in_range]). *)
Definition obind (T U : Type) (c : outcome T) (k : T -> outcome U)
  : outcome U :=
  match c with
  | Returns v => k v
  | Raises e => Raises e
  end.

(** A value decoded by [json.loads]. An object is kept as the list of its
    members; a key is looked up from the front. A [unicode] string is kept
    one character per code point, the code points being below 256; the
    [str] keys of the source, which are ASCII, and the [unicode] strings of
    the decoder compare equal when they hold the same characters. *)
Inductive pyjson : Type :=
| PNone
| PBool (b : bool)
| PInt (n : Z)
| PFloat (f : float)
| PUnicode (s : string)
| PArray (items : list pyjson)
| PDict (members : list (string * pyjson)).

(** What [logging.warning] is called with. *)
Inductive warning : Type :=
| ParseError (customer_json : string)
| MissingKeys (customer : pyjson) (missing_keys : list string)
| BadLatitude (value : pyjson)
| BadLongitude (value : pyjson).

(** Code that logs and may raise: the log is threaded, and kept when an
    exception is raised. *)
Definition py (T : Type) : Type := list warning -> outcome T * list warning.

Definition ret (T : Type) (v : T) : py T := fun log => (Returns v, log).

Definition bind (T U : Type) (c : py T) (k : T -> py U) : py U :=
  fun log =>
    match c log with
    | (Returns v, log') => k v log'
    | (Raises e, log') => (Raises e, log')
    end.

Definition lift (T : Type) (c : outcome T) : py T := fun log => (c, log).

Definition logging_warning (w : warning) : py unit :=
  fun log => (Returns tt, log ++ [w]).

(** [try: body  except exc: handler]. *)
Definition try_except (T : Type) (body : py T) (exc : exception)
    (handler : py T) : py T :=
  fun log =>
    match body log with
    | (Returns v, log') => (Returns v, log')
    | (Raises e, log') =>
        if is_instance e exc then handler log' else (Raises e, log')
    end.

(** The builtins whose code is outside the repository: the JSON decoder,
    the string-to-float parser, the float formatter and the C library's
    trigonometry. [json.loads] returns a value or raises: ValueError on
    text that is not JSON, something else (RuntimeError) on text it cannot
    cope with. [None] stands for the ValueError that [float] raises on text
    it cannot read, and that the [math] functions raise outside their
    domain ("math domain error"). *)
Record builtins : Type := Builtins {
  json_loads : string -> outcome pyjson;
  float_of_str : string -> option float;
  format_float : float -> string;
  math_sin : float -> option float;
  math_cos : float -> option float;
  math_acos : float -> option float
}.

(** [math.pi], the double nearest to pi. *)
Definition math_pi : float := 0x1.921fb54442d18p+1%float.

(** [math.radians(x)]: CPython computes [x * (pi / 180.0)]. *)
Definition math_radians (x : float) : float :=
  (x * (math_pi / 180))%float.

(** [float(n)] for an integer: the nearest double, ties to even, and
    OverflowError when that is beyond the largest double. *)
Definition float_of_int (n : Z) : outcome float :=
  match binary_normalize prec emax n 0 false with
  | S754_infinity _ => Raises OverflowError
  | x => Returns (SF2Prim x)
  end.

(** [float(v)]. *)
Definition py_float (B : builtins) (v : pyjson) : outcome float :=
  match v with
  | PNone => Raises TypeError
  | PBool b => Returns (if b then 1%float else 0%float)
  | PInt n => float_of_int n
  | PFloat f => Returns f
  | PUnicode s =>
      match float_of_str B s with
      | Some f => Returns f
      | None => Raises ValueError
      end
  | PArray _ => Raises TypeError
  | PDict _ => Raises TypeError
  end.

(** [d[key]] on the members of a dict. *)
Fixpoint lookup (key : string) (members : list (string * pyjson))
  : option pyjson :=
  match members with
  | [] => None
  | (k, v) :: rest => if String.eqb key k then Some v else lookup key rest
  end.

(** [key == item] for a [str] key. *)
Definition str_equals (key : string) (item : pyjson) : bool :=
  match item with
  | PUnicode s => String.eqb key s
  | _ => false
  end.

(** [key in text]: substring search. *)
Definition is_substring (key text : string) : bool :=
  match String.index 0 key text with
  | Some _ => true
  | None => false
  end.

(** [key in container]. *)
Definition py_in (key : string) (container : pyjson) : outcome bool :=
  match container with
  | PDict members =>
      Returns (match lookup key members with Some _ => true | None => false end)
  | PArray items => Returns (existsb (str_equals key) items)
  | PUnicode text => Returns (is_substring key text)
  | PNone | PBool _ | PInt _ | PFloat _ => Raises TypeError
  end.

(** [container[key]] for a [str] key. *)
Definition getitem (container : pyjson) (key : string) : outcome pyjson :=
  match container with
  | PDict members =>
      match lookup key members with
      | Some v => Returns v
      | None => Raises KeyError
      end
  | _ => Raises TypeError
  end.

(** Whether a value can be a member of a set. *)
Definition hashable (v : pyjson) : bool :=
  match v with
  | PArray _ | PDict _ => false
  | _ => true
  end.

Fixpoint characters (s : string) : list pyjson :=
  match s with
  | EmptyString => []
  | String c rest => PUnicode (String c EmptyString) :: characters rest
  end.

(** [set(container)], as the list of what iterating the container yields:
    the keys of a dict, the items of a list, the characters of a string. *)
Definition py_set (container : pyjson) : outcome (list pyjson) :=
  match container with
  | PDict members => Returns (map (fun kv => PUnicode (fst kv)) members)
  | PArray items =>
      if forallb hashable items then Returns items else Raises TypeError
  | PUnicode text => Returns (characters text)
  | PNone | PBool _ | PInt _ | PFloat _ => Raises TypeError
  end.

(** [sorted(items, key=key)] with keys compared by [lt]: a stable sort,
    here by insertion from the right. *)
Section Sorted.
Variables (T K : Type) (key : T -> K) (lt : K -> K -> bool).

Fixpoint insert_by_key (x : T) (l : list T) : list T :=
  match l with
  | [] => [x]
  | y :: rest =>
      if lt (key y) (key x) then y :: insert_by_key x rest else x :: y :: rest
  end.

Definition sorted_by_key (l : list T) : list T :=
  fold_right insert_by_key [] l.

End Sorted.

(** [sep.join(lines)]. *)
Fixpoint join (sep : string) (lines : list string) : string :=
  match lines with
  | [] => EmptyString
  | [line] => line
  | line :: rest => (line ++ sep ++ join sep rest)%string
  end.

(** [str(n)] for an integer. *)
Definition str_of_int (n : Z) : string :=
  DecimalString.NilZero.string_of_int (Z.to_int n).

(** Whether a string holds ASCII characters only. *)
Definition is_ascii (s : string) : bool :=
  forallb (fun c => (nat_of_ascii c <? 128)%nat) (list_ascii_of_string s).

(** A [unicode] string turned into a [str], as [str(u)] and
    ["{}".format(u)] do in Python 2: it is encoded with the ASCII codec,
    which raises on any other character. *)
Definition encode_ascii (u : string) : outcome string :=
  if is_ascii u then Returns u else Raises UnicodeEncodeError.

(** [str(v)] of a decoded value, as far as raising goes: a [unicode] string
    is encoded; every other value is written the way [repr] writes it,
    with the characters that are not ASCII escaped. *)
Definition py_str (v : pyjson) : outcome unit :=
  match v with
  | PUnicode u => obind (encode_ascii u) (fun _ => Returns tt)
  | _ => Returns tt
  end.

End PyRuntime.

Declare Scope py_scope.
Delimit Scope py_scope with py.
Notation "x <- c ;; k" := (PyRuntime.bind c (fun x => k))
  (at level 61, c at next level, right associativity) : py_scope.
Notation "c ;;; k" := (PyRuntime.bind c (fun _ => k))
  (at level 61, right associativity) : py_scope.
Notation "x <~ c ;; k" := (PyRuntime.obind c (fun x => k))
  (at level 61, c at next level, right associativity) : py_scope.

(* ===================================================================== *)
(** * question_3/closecustomers.py                                        *)
(* ===================================================================== *)

Module CloseCustomers.
Import PyRuntime.
Local Open Scope py_scope.
Local Open Scope string_scope.

(** [Coordinate = namedtuple('Coordinate', ['latitude', 'longitude'])]. *)
Record Coordinate : Type := MkCoordinate {
  latitude : float;
  longitude : float
}.

(** [Customer = namedtuple('Customer', ['name', 'user_id', 'location'])].
    A namedtuple does not fix the types of its fields: [parse_customer_data]
    stores whatever the JSON record holds, the tests and the report use a
    string and an integer. *)
Record Customer (N U : Type) : Type := MkCustomer {
  name : N;
  user_id : U;
  location : Coordinate
}.

Arguments MkCustomer {N U} name user_id location.
Arguments name {N U} c.
Arguments user_id {N U} c.
Arguments location {N U} c.

Definition EARTH_RADIUS_IN_KM : float := 6371%float.
Definition RANGE_IN_KM : float := 100%float.

(** [Coordinate(53.3381985, -6.2592576)], each the nearest double. *)
Definition DUBLIN_OFFICE : Coordinate :=
  MkCoordinate 0x1.aab4a16a48733p+5%float (-0x1.9097ad304f532p+2)%float.

(** [set(['name', 'user_id', 'latitude', 'longitude'])]. A set is iterated
    in an order of its own; nothing below depends on it but the order in
    which missing keys are logged. *)
Definition EXPECTED_KEYS : list string :=
  ["name"; "user_id"; "latitude"; "longitude"].

(** ** validate_customer *)

(** Line 94: [all(key in customer for key in EXPECTED_KEYS)]. *)
Fixpoint all_keys_in (keys : list string) (customer : pyjson)
  : outcome bool :=
  match keys with
  | [] => Returns true
  | key :: rest =>
      present <~ py_in key customer ;;
      if present : bool then all_keys_in rest customer else Returns false
  end.

(** Line 96: [EXPECTED_KEYS - set(customer)]. *)
Definition keys_missing_from (customer : pyjson) : outcome (list string) :=
  members <~ py_set customer ;;
  Returns
    (filter (fun key => negb (existsb (str_equals key) members))
       EXPECTED_KEYS).

(** Lines 103-107 and 109-113: [float(customer[key])] under
    [except ValueError], which logs and makes the caller return False.
    The result says whether the value parsed. *)
Definition parses_as_float (B : builtins) (customer : pyjson) (key : string)
    (complaint : pyjson -> warning) : py bool :=
  try_except
    (value <- lift (getitem customer key) ;;
     _ <- lift (py_float B value) ;;
     ret true)
    ValueError
    (value <- lift (getitem customer key) ;;
     logging_warning (complaint value) ;;;
     ret false).

(** Lines 83-115. The arguments of the call of line 97 are computed before
    it: [str(customer)] of line 100 can raise. *)
Definition validate_customer (B : builtins) (customer : pyjson) : py bool :=
  customer_has_required_keys <- lift (all_keys_in EXPECTED_KEYS customer) ;;
  if negb customer_has_required_keys then
    missing_keys <- lift (keys_missing_from customer) ;;
    _ <- lift (py_str customer) ;;
    logging_warning (MissingKeys customer missing_keys) ;;;
    ret false
  else
    latitude_parses <- parses_as_float B customer "latitude" BadLatitude ;;
    if negb latitude_parses then ret false
    else
      longitude_parses <- parses_as_float B customer "longitude" BadLongitude ;;
      if negb longitude_parses then ret false
      else ret true.

(** ** parse_customer_data *)

(** Lines 74-78: the Customer built from a record that passed validation. *)
Definition build_customer (B : builtins) (customer_data : pyjson)
  : outcome (Customer pyjson pyjson) :=
  lat_value <~ getitem customer_data "latitude" ;;
  lat <~ py_float B lat_value ;;
  lon_value <~ getitem customer_data "longitude" ;;
  lon <~ py_float B lon_value ;;
  customer_name <~ getitem customer_data "name" ;;
  customer_id <~ getitem customer_data "user_id" ;;
  Returns (MkCustomer customer_name customer_id (MkCoordinate lat lon)).

(** Lines 64-79: the [for] loop, [customers] being the list built so far.
    [except ValueError] of line 67 lets every other exception of
    [json.loads] through. *)
Fixpoint parse_each (B : builtins) (all_customers_json : list string)
    (customers : list (Customer pyjson pyjson))
  : py (list (Customer pyjson pyjson)) :=
  match all_customers_json with
  | [] => ret customers
  | customer_json :: rest =>
      match json_loads B customer_json with
      | Raises e =>
          if is_instance e ValueError then
            logging_warning (ParseError customer_json) ;;;
            parse_each B rest customers
          else lift (Raises e)
      | Returns customer_data =>
          valid <- validate_customer B customer_data ;;
          if negb valid then parse_each B rest customers
          else
            customer <- lift (build_customer B customer_data) ;;
            parse_each B rest (customers ++ [customer])
      end
  end.

(** Lines 48-80. *)
Definition parse_customer_data (B : builtins)
    (all_customers_json : list string)
  : py (list (Customer pyjson pyjson)) :=
  parse_each B all_customers_json [].

(** [float(value)] returns, or raises the ValueError that
    [validate_customer] catches. *)
Definition float_or_value_error (B : builtins) (value : pyjson) : Prop :=
  match py_float B value with
  | Returns _ => True
  | Raises e => e = ValueError
  end.

(** A decoded line that is an object whose latitude and longitude, when
    present, are of a type [float] accepts. *)
Definition plain_record (B : builtins) (customer_data : pyjson) : Prop :=
  match customer_data with
  | PDict members =>
      forall key value,
        key = "latitude" \/ key = "longitude" ->
        lookup key members = Some value ->
        float_or_value_error B value
  | _ => False
  end.

(** Line 96 on a dict. *)
Definition missing_keys_of (members : list (string * pyjson)) : list string :=
  filter
    (fun key =>
       negb (existsb (str_equals key)
               (map (fun kv => PUnicode (fst kv)) members)))
    EXPECTED_KEYS.

(** ** distance *)

(** A [math] function that raises "math domain error". *)
Definition domain (r : option float) : outcome float :=
  match r with
  | Some v => Returns v
  | None => Raises ValueError
  end.

(** Lines 140-145: the argument handed to [math.acos]. *)
Definition acos_argument (B : builtins) (coord1 coord2 : Coordinate)
  : outcome float :=
  let coord1 := MkCoordinate (math_radians (latitude coord1))
                             (math_radians (longitude coord1)) in
  let coord2 := MkCoordinate (math_radians (latitude coord2))
                             (math_radians (longitude coord2)) in
  sin1 <~ domain (math_sin B (latitude coord1)) ;;
  sin2 <~ domain (math_sin B (latitude coord2)) ;;
  let sine_of_latitudes := (sin1 * sin2)%float in
  cos1 <~ domain (math_cos B (latitude coord1)) ;;
  cos2 <~ domain (math_cos B (latitude coord2)) ;;
  let cos_of_latitudes := (cos1 * cos2)%float in
  let abs_longitude_difference :=
    abs (longitude coord1 - longitude coord2)%float in
  cos_difference <~ domain (math_cos B abs_longitude_difference) ;;
  Returns (sine_of_latitudes + cos_of_latitudes * cos_difference)%float.

(** Lines 118-146. *)
Definition distance (B : builtins) (coord1 coord2 : Coordinate)
  : outcome float :=
  argument <~ acos_argument B coord1 coord2 ;;
  central_angle <~ domain (math_acos B argument) ;;
  Returns (EARTH_RADIUS_IN_KM * central_angle)%float.

(** ** get_customers_in_range *)

Section Range.
Variables N U : Type.

(** Lines 160-162: the [for] loop, [customers_in_range] being the list
    built so far. *)
Fixpoint keep_in_range (B : builtins) (customers : list (Customer N U))
    (customers_in_range : list (Customer N U))
  : outcome (list (Customer N U)) :=
  match customers with
  | [] => Returns customers_in_range
  | customer :: rest =>
      d <~ distance B (location customer) DUBLIN_OFFICE ;;
      if (d <=? RANGE_IN_KM)%float
      then keep_in_range B rest (customers_in_range ++ [customer])
      else keep_in_range B rest customers_in_range
  end.

(** Lines 149-163. *)
Definition get_customers_in_range (B : builtins)
    (customers : list (Customer N U)) : outcome (list (Customer N U)) :=
  keep_in_range B customers [].

(** The test of line 161 as a boolean: false also when [distance] raises. *)
Definition in_range (B : builtins) (customer : Customer N U) : bool :=
  match distance B (location customer) DUBLIN_OFFICE with
  | Returns d => (d <=? RANGE_IN_KM)%float
  | Raises _ => false
  end.

(** [distance] returns for the customer. *)
Definition has_distance (B : builtins) (customer : Customer N U) : Prop :=
  exists d, distance B (location customer) DUBLIN_OFFICE = Returns d.

End Range.

(** ** format_customers *)

Definition newline : string := String (ascii_of_nat 10) EmptyString.

Section Report.

(** The types of the names and of the user ids, with what Python does on
    them: [<] on two ids, and [format] of one value, which can raise. *)
Variables N U : Type.
Variable id_lt : U -> U -> bool.
Variable format_id : U -> outcome string.
Variable format_name : N -> outcome string.

(** Line 181: ["{}: {}".format(customer.user_id, customer.name)], the
    fields being formatted from left to right. *)
Definition format_line (customer : Customer N U) : outcome string :=
  id_text <~ format_id (user_id customer) ;;
  name_text <~ format_name (name customer) ;;
  Returns (id_text ++ ": " ++ name_text).

(** Lines 180-181: the [for] loop, [result] being the list built so far. *)
Fixpoint format_each (sorted_customers : list (Customer N U))
    (result : list string) : outcome (list string) :=
  match sorted_customers with
  | [] => Returns result
  | customer :: rest =>
      line <~ format_line customer ;;
      format_each rest (result ++ [line])%list
  end.

(** Lines 166-184. *)
Definition format_customers (B : builtins) (customers : list (Customer N U))
  : outcome string :=
  let sorted_customers := sorted_by_key (@user_id N U) id_lt customers in
  result <~ format_each sorted_customers [] ;;
  match result with
  | _ :: _ => Returns (join newline result)
  | [] =>
      Returns ("No customers within " ++ format_float B RANGE_IN_KM ++ " km.")
  end.

End Report.

(** [format_customers] on customers whose name is a [str] and whose user id
    is an [int], as the tests build them: formatting copies the name and
    writes the integer in decimal. *)
Definition format_named_customers (B : builtins)
    (customers : list (Customer string Z)) : outcome string :=
  format_customers Z.ltb (fun n => Returns (str_of_int n))
    (fun s => Returns s) B customers.

(** [format_customers] on customers whose name is a [unicode] string, as
    [json.loads] gives them, and whose user id is an [int]: the [str]
    template makes [format] encode the name. *)
Definition format_decoded_customers (B : builtins)
    (customers : list (Customer string Z)) : outcome string :=
  format_customers Z.ltb (fun n => Returns (str_of_int n)) encode_ascii
    B customers.

(** Customers in ascending order of user id. *)
Definition ascending (customers : list (Customer string Z)) : Prop :=
  Sorted (fun a b => (user_id a <= user_id b)%Z) customers.

(** ** Sample data for the examples *)

(** 8 degrees north on the Greenwich meridian. *)
Definition eight_north : Coordinate := MkCoordinate 8%float 0%float.

(** [sin] and [cos] of [math.radians(8.0)] and of the latitude of
    [DUBLIN_OFFICE] in radians: the doubles nearest to the exact values,
    which is what glibc's [sin] and [cos] return. In decimal:
    0.13917310096006544, 0.9902680687415704, 0.8021738964964187 and
    0.597090478721402. *)
Definition sin_eight_north : float := 0x1.1d06c968d9e19p-3%float.
Definition cos_eight_north : float := 0x1.fb046a930947ap-1%float.
Definition sin_dublin : float := 0x1.9ab6897650634p-1%float.
Definition cos_dublin : float := 0x1.31b5d7ddb90a2p-1%float.

(** The C library at the arguments that [distance(eight_north, eight_north)]
    reaches: the two values above, and [cos(0.0)], which C99 fixes at 1. *)
Definition libm_at_eight_north (B : builtins) : Prop :=
  math_sin B (math_radians 8) = Some sin_eight_north /\
  math_cos B (math_radians 8) = Some cos_eight_north /\
  math_cos B 0%float = Some 1%float.

(** The C library at the arguments that
    [distance(DUBLIN_OFFICE, DUBLIN_OFFICE)] reaches; C99 fixes [acos(1.0)]
    at 0. *)
Definition libm_at_dublin (B : builtins) : Prop :=
  math_sin B (math_radians (latitude DUBLIN_OFFICE)) = Some sin_dublin /\
  math_cos B (math_radians (latitude DUBLIN_OFFICE)) = Some cos_dublin /\
  math_cos B 0%float = Some 1%float /\
  math_acos B 1%float = Some 0%float.

(** A point less than a millimetre from [DUBLIN_OFFICE]:
    [Coordinate(53.33819850051181, -6.259257599528627)]. *)
Definition near_office : Coordinate :=
  MkCoordinate 0x1.aab4a16a5a092p+5%float (-0x1.9097ad2fcdc13p+2)%float.

(** [sin] and [cos] of the latitude of [near_office] in radians, the
    doubles nearest to the exact values: 0.8021738965017524 and
    0.5970904787142364. *)
Definition sin_near_office : float := 0x1.9ab689765c1dep-1%float.
Definition cos_near_office : float := 0x1.31b5d7dda9484p-1%float.

(** The C library at the arguments that [distance(near_office,
    DUBLIN_OFFICE)] reaches and that [libm_at_dublin] leaves out. The
    longitudes differ by 8.22700241265295e-12 radians, whose cosine
    rounds to 1. *)
Definition libm_near_office (B : builtins) : Prop :=
  math_sin B (math_radians (latitude near_office)) = Some sin_near_office /\
  math_cos B (math_radians (latitude near_office)) = Some cos_near_office /\
  math_cos B 0x1.21764p-37%float = Some 1%float.

(** [math.acos(x)] raises ValueError for every x above 1. *)
Definition acos_domain_error (B : builtins) : Prop :=
  forall x, (1 <? x)%float = true -> math_acos B x = None.

(** [str(100.0)]. *)
Definition formats_range (B : builtins) : Prop :=
  format_float B RANGE_IN_KM = "100.0".

(** A record whose latitude is JSON's [null], and the line it is decoded
    from. *)
Definition null_latitude_record : pyjson :=
  PDict [("name", PUnicode "A"); ("user_id", PInt 1);
         ("latitude", PNone); ("longitude", PUnicode "1")].

Definition quoted (s : string) : string :=
  String (ascii_of_nat 34) s ++ String (ascii_of_nat 34) EmptyString.

Definition null_latitude_line : string :=
  "{" ++ quoted "name" ++ ": " ++ quoted "A" ++ ", "
      ++ quoted "user_id" ++ ": 1, "
      ++ quoted "latitude" ++ ": null, "
      ++ quoted "longitude" ++ ": " ++ quoted "1" ++ "}".

(** The builtins restricted to the arguments the examples use: a table of
    what CPython on glibc answers there. Elsewhere the table has no entry
    and answers NaN, or that the text cannot be read; no example reads
    those. The latitude of San Francisco, 37.7749, is
    0x1.518f4b899b294p-1 radians, and its longitude is
    0x1.0381167492614p+1 radians from that of [DUBLIN_OFFICE]; the sum
    handed to [math.acos] for the two is 0x1.221a89f92120ep-2. *)
Definition sample_builtins : builtins :=
  {| json_loads := fun text =>
       if String.eqb text null_latitude_line
       then Returns null_latitude_record
       else Raises ValueError;
     float_of_str := fun text =>
       if String.eqb text "1" then Some 1%float else None;
     format_float := fun x =>
       if (x =? 100)%float then "100.0" else "nan";
     math_sin := fun x =>
       if (x =? math_radians 8)%float then Some sin_eight_north
       else if (x =? math_radians (latitude DUBLIN_OFFICE))%float
       then Some sin_dublin
       else if (x =? math_radians (latitude near_office))%float
       then Some sin_near_office
       else if (x =? 0x1.518f4b899b294p-1)%float
       then Some 0x1.39a1933d629c3p-1%float
       else Some nan;
     math_cos := fun x =>
       if (x =? 0)%float then Some 1%float
       else if (x =? 0x1.21764p-37)%float then Some 1%float
       else if (x =? math_radians 8)%float then Some cos_eight_north
       else if (x =? math_radians (latitude DUBLIN_OFFICE))%float
       then Some cos_dublin
       else if (x =? math_radians (latitude near_office))%float
       then Some cos_near_office
       else if (x =? 0x1.518f4b899b294p-1)%float
       then Some 0x1.94b2617b74a5ep-1%float
       else if (x =? 0x1.0381167492614p+1)%float
       then Some (-0x1.c376756c0e414p-2)%float
       else Some nan;
     math_acos := fun x =>
       if (1 <? x)%float then None
       else if (x =? 1)%float then Some 0%float
       else if (x =? 0x1.221a89f92120ep-2)%float
       then Some 0x1.48974922b3f8cp+0%float
       else Some nan |}.

(** The customers of [test_format_customers]. *)
Definition tyrion : Customer string Z :=
  MkCustomer "Tyrion Lannister" 1%Z
    (MkCoordinate 0x1.2e32fec56d5d0p+5%float (-0x1.e9ad77318fc50p+6)%float).
Definition arya : Customer string Z :=
  MkCustomer "Arya Stark" 2%Z
    (MkCoordinate 0x1.2e32fec56d5d0p+5%float (-0x1.e9ad77318fc50p+6)%float).


(** The first customer of [test_get_customers_in_range], located at
    [DUBLIN_OFFICE]. *)
Definition handsome_jack : Customer string Z :=
  MkCustomer "Handsome Jack" 1%Z DUBLIN_OFFICE.

(** The second customer of [test_get_customers_in_range], in San
    Francisco, 8177.550798096905 km away. *)
Definition mr_torgue : Customer string Z :=
  MkCustomer "Mr. Torgue" 2%Z
    (MkCoordinate 0x1.2e32fec56d5d0p+5%float (-0x1.e9ad77318fc50p+6)%float).

(** A customer located at [near_office]. *)
Definition next_door : Customer string Z :=
  MkCustomer "Next Door" 3%Z near_office.

(** A customer whose name, Se\xe1n, has a character that is not ASCII. *)
Definition sean : Customer string Z :=
  MkCustomer ("Se" ++ String (ascii_of_nat 225) "n") 4%Z DUBLIN_OFFICE.

End CloseCustomers.

(* ===================================================================== *)
(** * Runs of the loop of [flatten_list]                                  *)
(* ===================================================================== *)

Module FlattenRuns.
Import FlattenList.

Section Runs.
Variables A B : Type.

(** [reaches st st']: the loop, started in [st], is in [st'] after some
    number of iterations (none included). *)
Inductive reaches : state A -> state A -> Prop :=
| reaches_here (st : state A) : reaches st st
| reaches_step (st st' st'' : state A) :
    loop_body st = Some st' -> reaches st' st'' -> reaches st st''.

(** The same nesting with [f] applied to every value that is not a list. *)
Fixpoint map_leaves (f : A -> B) (x : pyobj A) : pyobj B :=
  match x with
  | Leaf a => Leaf (f a)
  | PyList items => PyList (map (map_leaves f) items)
  end.

End Runs.

(** The same nesting read from right to left, at every depth. *)
Fixpoint mirror (A : Type) (x : pyobj A) : pyobj A :=
  match x with
  | Leaf a => Leaf a
  | PyList items => PyList (rev (map (@mirror A) items))
  end.

End FlattenRuns.

(* ===================================================================== *)
(** * closecustomers.py: the program around the stages                    *)
(* ===================================================================== *)

Module Program.
Import PyRuntime CloseCustomers.
Local Open Scope string_scope.

(** A record that has the four keys, with a latitude and a longitude that
    [float] converts. *)
Definition complete_record (B : builtins) (customer : pyjson) : Prop :=
  exists members customer_name customer_id lat lon x y,
    customer = PDict members /\
    lookup "name" members = Some customer_name /\
    lookup "user_id" members = Some customer_id /\
    lookup "latitude" members = Some lat /\
    lookup "longitude" members = Some lon /\
    py_float B lat = Returns x /\
    py_float B lon = Returns y.

(** What one line adds to the list that [parse_customer_data] builds: the
    customer when the line decodes and the record passes
    [validate_customer], nothing otherwise. *)
Definition customer_of_line (B : builtins) (customer_json : string)
  : option (Customer pyjson pyjson) :=
  match json_loads B customer_json with
  | Returns customer_data =>
      match fst (validate_customer B customer_data []) with
      | Returns true =>
          match build_customer B customer_data with
          | Returns customer => Some customer
          | Raises _ => None
          end
      | _ => None
      end
  | Raises _ => None
  end.

Definition customers_of_lines (B : builtins)
    (all_customers_json : list string) : list (Customer pyjson pyjson) :=
  flat_map
    (fun customer_json =>
       match customer_of_line B customer_json with
       | Some customer => [customer]
       | None => []
       end)
    all_customers_json.

(** A line on which neither [json.loads] nor [validate_customer] can raise
    anything that is not caught: the decoder raises ValueError, or
    returns a plain record. *)
Definition harmless_line (B : builtins) (customer_json : string) : Prop :=
  match json_loads B customer_json with
  | Returns customer_data => plain_record B customer_data
  | Raises e => e = ValueError
  end.

(** The point at the same latitude on the other side of the Greenwich
    meridian. *)
Definition across_meridian (c : Coordinate) : Coordinate :=
  MkCoordinate (latitude c) (- longitude c)%float.

(** ** get_file_contents and main *)

Definition INPUT_FILE : string := "customers.json".

(** What is written to closecustomers.log: the warnings of the stages, and
    the [logging.exception] of [get_file_contents]. *)
Inductive log_record : Type :=
| Warned (w : warning)
| CouldNotOpen (filename : string).

(** How a run of the program ends: the report is printed, [sys.exit] is
    called, or an exception reaches the top and nothing is printed. *)
Inductive ending : Type :=
| Printed (text : string)
| Exited (status : Z)
| Uncaught (e : exception).

Section Main.

(** The files that can be read, each as the list of its lines; [None] when
    [open] raises IOError. *)
Variable files : string -> option (list string).
Variable B : builtins.

(** [<] on two user ids and [format] of a user id or of a name, as decoded
    from JSON; [format] can raise. *)
Variable py_lt : pyjson -> pyjson -> bool.
Variable py_format : pyjson -> outcome string.

(** Lines 26-45: the lines of the file, or the exit status after
    [logging.exception] and [sys.exit(1)]. *)
Definition get_file_contents (filename : string)
  : (list string + Z) * list log_record :=
  match files filename with
  | None => (inr 1%Z, [CouldNotOpen filename])
  | Some file_contents => (inl file_contents, [])
  end.

(** Lines 187-191. *)
Definition main : ending * list log_record :=
  match get_file_contents INPUT_FILE with
  | (inr status, log) => (Exited status, log)
  | (inl customer_file_contents, log) =>
      match parse_customer_data B customer_file_contents [] with
      | (Raises e, warnings) => (Uncaught e, (log ++ map Warned warnings)%list)
      | (Returns customers, warnings) =>
          match get_customers_in_range B customers with
          | Raises e => (Uncaught e, (log ++ map Warned warnings)%list)
          | Returns customers_in_range =>
              match format_customers py_lt py_format py_format B
                      customers_in_range with
              | Raises e =>
                  (Uncaught e, (log ++ map Warned warnings)%list)
              | Returns text =>
                  (Printed text, (log ++ map Warned warnings)%list)
              end
          end
      end
  end.

End Main.

(** ** Sample data for the examples *)

(** A record located at [DUBLIN_OFFICE], and the line it is decoded from. *)
Definition jack_record : pyjson :=
  PDict [("latitude", PUnicode "53.3381985"); ("user_id", PInt 1);
         ("name", PUnicode "Handsome Jack");
         ("longitude", PUnicode "-6.2592576")].

Definition jack_line : string :=
  "{" ++ quoted "latitude" ++ ": " ++ quoted "53.3381985" ++ ", "
      ++ quoted "user_id" ++ ": 1, "
      ++ quoted "name" ++ ": " ++ quoted "Handsome Jack" ++ ", "
      ++ quoted "longitude" ++ ": " ++ quoted "-6.2592576" ++ "}".

(** A record located at [DUBLIN_OFFICE] whose name, Se\xe1n, has a
    character that is not ASCII, and the line it is decoded from. *)
Definition sean_record : pyjson :=
  PDict [("latitude", PUnicode "53.3381985"); ("user_id", PInt 4);
         ("name", PUnicode ("Se" ++ String (ascii_of_nat 225) "n"));
         ("longitude", PUnicode "-6.2592576")].

Definition sean_line : string :=
  "{" ++ quoted "latitude" ++ ": " ++ quoted "53.3381985" ++ ", "
      ++ quoted "user_id" ++ ": 4, "
      ++ quoted "name" ++ ": " ++ quoted "Se\u00e1n" ++ ", "
      ++ quoted "longitude" ++ ": " ++ quoted "-6.2592576" ++ "}".

(** A record without coordinates, as in
    [test_validate_customer_missing_keys]. *)
Definition hodor_record : pyjson := PDict [("name", PUnicode "Hodor")].

(** A record whose coordinates are not numbers, as in
    [test_validate_customer_invalid_latitude]. *)
Definition dany_record : pyjson :=
  PDict [("name", PUnicode "Dany Targaryen"); ("user_id", PInt 1);
         ("longitude", PUnicode "invalid"); ("latitude", PUnicode "invalid")].

(** The builtins restricted to the arguments the examples use: the table
    of [sample_builtins] for the C library and the formatter, a decoder
    that reads the two sample lines, and a parser that reads the two
    coordinates of [DUBLIN_OFFICE]. *)
Definition demo_builtins : builtins :=
  {| json_loads := fun text =>
       if String.eqb text jack_line then Returns jack_record
       else if String.eqb text sean_line then Returns sean_record
       else if String.eqb text null_latitude_line
       then Returns null_latitude_record
       else Raises ValueError;
     float_of_str := fun text =>
       if String.eqb text "53.3381985" then Some (latitude DUBLIN_OFFICE)
       else if String.eqb text "-6.2592576"
       then Some (longitude DUBLIN_OFFICE)
       else None;
     format_float := format_float sample_builtins;
     math_sin := math_sin sample_builtins;
     math_cos := math_cos sample_builtins;
     math_acos := math_acos sample_builtins |}.

(** [<] and [format] on the values the examples hold: integers and
    [unicode] strings. *)
Definition demo_lt (a b : pyjson) : bool :=
  match a, b with
  | PInt m, PInt n => (m <? n)%Z
  | _, _ => false
  end.

Definition demo_format (v : pyjson) : outcome string :=
  match v with
  | PInt n => Returns (str_of_int n)
  | PUnicode u => encode_ascii u
  | _ => Returns "?"
  end.

(** A directory that holds customers.json with the given lines. *)
Definition one_file (lines : list string) (filename : string)
  : option (list string) :=
  if String.eqb filename INPUT_FILE then Some lines else None.

(** The customer that [jack_line] gives. *)
Definition jack : Customer pyjson pyjson :=
  MkCustomer (PUnicode "Handsome Jack") (PInt 1) DUBLIN_OFFICE.

(** A customer whose latitude is not a number, as [float] reads the text
    nan. *)
Definition nowhere : Customer pyjson pyjson :=
  MkCustomer (PUnicode "Nowhere") (PInt 5) (MkCoordinate nan 0%float).

(** A customer on the meridian of [DUBLIN_OFFICE], about 100 km north of
    it: latitude 54.23752010591835. *)
Definition hundred_km_north : Customer pyjson pyjson :=
  MkCustomer (PUnicode "North") (PInt 6)
    (MkCoordinate 0x1.b1e670f0f87e8p+5%float (longitude DUBLIN_OFFICE)).

(** The C library at the arguments that the distances of [nowhere] and of
    [hundred_km_north] to [DUBLIN_OFFICE] reach. [sin], [cos] and [acos]
    of NaN are NaN; the sine and cosine of the northern latitude are the
    doubles nearest to the exact values; the longitude of [DUBLIN_OFFICE]
    is 0.10924465385047821 radians west. For the northern customer
    [math.acos] receives 0x1.ffefdab605e31p-1: glibc answers
    0x1.012a4fcd357a8p-6 there, 99.99999999997783 km; this table holds a
    less accurate answer, 0x1.012a4fcd35b93p-6, which is exactly 100.0
    km. *)
Definition coarse_builtins : builtins :=
  {| json_loads := fun _ => Raises ValueError;
     float_of_str := fun _ => None;
     format_float := format_float sample_builtins;
     math_sin := fun x =>
       if is_nan x then Some nan
       else if (x =? math_radians (latitude DUBLIN_OFFICE))%float
       then Some sin_dublin
       else if (x =? 0x1.e4abcf4852484p-1)%float
       then Some 0x1.9f75f1423ea3ap-1%float
       else Some nan;
     math_cos := fun x =>
       if is_nan x then Some nan
       else if (x =? 0)%float then Some 1%float
       else if (x =? 0x1.bf775278cf708p-4)%float
       then Some 0x1.fcf2a523b384dp-1%float
       else if (x =? math_radians (latitude DUBLIN_OFFICE))%float
       then Some cos_dublin
       else if (x =? 0x1.e4abcf4852484p-1)%float
       then Some 0x1.2b39f0bc3dfb7p-1%float
       else Some nan;
     math_acos := fun x =>
       if is_nan x then Some nan
       else if (1 <? x)%float then None
       else if (x =? 1)%float then Some 0%float
       else if (x =? 0x1.ffefdab605e31p-1)%float
       then Some 0x1.012a4fcd35b93p-6%float
       else Some nan |}.

End Program.

(* ===================================================================== *)
(** * Properties of [flatten_list]                                        *)
(* ===================================================================== *)

Module FlattenListFacts.
Import FlattenList.

Section Facts.

Variable A : Type.

#[local] Abbreviation pyobj := (pyobj A).
#[local] Abbreviation state := (state A).

(** ** The list operations of the loop *)

Lemma pop_snoc (X : Type) (l : list X) (x : X) : pop (l ++ [x]) = Some (l, x).
Proof.
  induction l as [|y l IH]; [reflexivity|].
  change ((y :: l) ++ [x]) with (y :: (l ++ [x])).
  simpl pop. rewrite IH.
  destruct (l ++ [x]) eqn:E; [|reflexivity].
  destruct l; discriminate E.
Qed.

Lemma pop_some (X : Type) (l rest : list X) (x : X) :
  pop l = Some (rest, x) -> l = rest ++ [x].
Proof.
  destruct l as [|y l' _] using rev_ind; [discriminate|].
  rewrite pop_snoc. intros [= <- <-]. reflexivity.
Qed.

Lemma pop_none (X : Type) (l : list X) : pop l = None -> l = [].
Proof.
  destruct l as [|y l' _] using rev_ind; [reflexivity|].
  rewrite pop_snoc. discriminate.
Qed.

Lemma fold_append_picks (cur : list pyobj) (indices : list nat) :
  forall stack,
    fold_left
      (fun stack index =>
         match nth_error cur index with
         | Some item => stack ++ [item]
         | None => stack
         end) indices stack
    = stack ++ picks cur indices.
Proof.
  induction indices as [|i indices IH]; intros stack; simpl.
  - now rewrite app_nil_r.
  - rewrite IH. destruct (nth_error cur i); simpl.
    + now rewrite <- app_assoc.
    + reflexivity.
Qed.

Lemma picks_rev (cur : list pyobj) (indices : list nat) :
  picks cur (rev indices) = rev (picks cur indices).
Proof.
  unfold picks.
  induction indices as [|i indices IH]; [reflexivity|]. simpl.
  rewrite flat_map_app, IH, rev_app_distr. simpl. rewrite app_nil_r.
  destruct (nth_error cur i); reflexivity.
Qed.

Lemma picks_seq (cur pre : list pyobj) :
  picks (pre ++ cur) (seq (length pre) (length cur)) = cur.
Proof.
  revert pre. induction cur as [|x cur IH]; intros pre; [reflexivity|].
  simpl. rewrite nth_error_app2, Nat.sub_diag by lia. simpl. f_equal.
  specialize (IH (pre ++ [x])).
  rewrite <- app_assoc, length_app, Nat.add_1_r in IH. exact IH.
Qed.

(** The index loop of lines 24-25 appends the items from last to first. *)
Lemma push_from_end_rev (stack cur : list pyobj) :
  push_from_end stack cur = stack ++ rev cur.
Proof.
  unfold push_from_end, xrange_down.
  rewrite fold_append_picks, picks_rev.
  pose proof (picks_seq cur []) as H. simpl in H. now rewrite H.
Qed.

(** ** One iteration *)

Lemma stack_weight_app (s t : list pyobj) :
  stack_weight (s ++ t) = stack_weight s + stack_weight t.
Proof. unfold stack_weight. now rewrite map_app, list_sum_app. Qed.

Lemma stack_weight_rev (s : list pyobj) :
  stack_weight (rev s) = stack_weight s.
Proof.
  induction s as [|x s IH]; [reflexivity|]. simpl rev.
  rewrite stack_weight_app, IH. unfold stack_weight. simpl. lia.
Qed.

Lemma pending_app (s t : list pyobj) :
  pending (s ++ t) = pending t ++ pending s.
Proof. unfold pending. now rewrite rev_app_distr, flat_map_app. Qed.

Lemma loop_body_progress (st : state) :
  stack st <> [] -> exists st', loop_body st = Some st'.
Proof.
  intros Hne. unfold loop_body.
  destruct (pop (stack st)) as [[rest [a|items]]|] eqn:E; eauto.
  now apply pop_none in E.
Qed.

Lemma loop_body_decreases (st st' : state) :
  loop_body st = Some st' ->
  stack_weight (stack st') < stack_weight (stack st).
Proof.
  unfold loop_body.
  destruct (pop (stack st)) as [[rest [a|items]]|] eqn:E; [| |discriminate];
    apply pop_some in E; rewrite E; intros [= <-]; simpl;
    rewrite ?push_from_end_rev, !stack_weight_app, ?stack_weight_rev;
    unfold stack_weight; simpl; lia.
Qed.

Lemma loop_body_preserves (st st' : state) :
  loop_body st = Some st' ->
  result st' ++ pending (stack st') = result st ++ pending (stack st).
Proof.
  unfold loop_body.
  destruct (pop (stack st)) as [[rest [a|items]]|] eqn:E; [| |discriminate];
    apply pop_some in E; rewrite E; intros [= <-]; simpl;
    rewrite ?push_from_end_rev, !pending_app.
  - now rewrite <- app_assoc.
  - do 2 f_equal. unfold pending. simpl.
    now rewrite rev_involutive, app_nil_r.
Qed.

(** ** The loop *)

Lemma while_loop_enough (fuel : nat) :
  forall st : state,
    stack_weight (stack st) <= fuel ->
    while_loop fuel st = Some (result st ++ pending (stack st)).
Proof.
  induction fuel as [|fuel IH]; intros st Hle.
  - destruct st as [[|x s] r]; simpl in *.
    + now rewrite app_nil_r.
    + unfold stack_weight in Hle. simpl in Hle. destruct x; simpl in Hle; lia.
  - destruct (stack st) as [|x s] eqn:Es.
    + simpl. rewrite Es. now rewrite app_nil_r.
    + destruct (loop_body_progress st) as [st' Hst']; [now rewrite Es|].
      simpl. rewrite Es, Hst'.
      rewrite IH.
      * f_equal. rewrite <- Es. now apply loop_body_preserves.
      * apply loop_body_decreases in Hst'. rewrite Es in Hst'. lia.
Qed.

Lemma while_loop_sound (fuel : nat) :
  forall (st : state) (out : list A),
    while_loop fuel st = Some out ->
    out = result st ++ pending (stack st).
Proof.
  induction fuel as [|fuel IH]; intros st out; simpl;
    destruct (stack st) as [|x s] eqn:Es.
  - intros [= <-]. now rewrite app_nil_r.
  - discriminate.
  - intros [= <-]. now rewrite app_nil_r.
  - destruct (loop_body st) as [st'|] eqn:Hst'; [|discriminate].
    intros H. apply IH in H. rewrite H, <- Es.
    now apply loop_body_preserves.
Qed.

Lemma pending_initial (x : pyobj) : pending [x] = preorder_leaves x.
Proof. unfold pending. simpl. now rewrite app_nil_r. Qed.

Lemma stack_weight_initial (x : pyobj) : stack_weight [x] = weight x.
Proof. unfold stack_weight. simpl. lia. Qed.

Lemma flatten_list_within_enough (x : pyobj) (fuel : nat) :
  weight x <= fuel ->
  flatten_list_within fuel x = Some (preorder_leaves x).
Proof.
  intros Hle. unfold flatten_list_within.
  rewrite while_loop_enough; simpl.
  - now rewrite pending_initial.
  - now rewrite stack_weight_initial.
Qed.

Lemma flatten_list_returns_preorder (x : pyobj) :
  flatten_list_returns x (preorder_leaves x).
Proof. exists (weight x). now apply flatten_list_within_enough. Qed.

Lemma flatten_list_returns_inv (x : pyobj) (out : list A) :
  flatten_list_returns x out -> out = preorder_leaves x.
Proof.
  intros [fuel H]. apply while_loop_sound in H. simpl in H.
  now rewrite pending_initial in H.
Qed.

(** ** Leaves *)

Lemma length_preorder_leaves (x : pyobj) :
  length (preorder_leaves x) = count_leaves x.
Proof.
  induction x as [a|items IH] using pyobj_rect_items; [reflexivity|].
  simpl. induction IH as [|y items Hy _ IHitems]; [reflexivity|].
  simpl. now rewrite length_app, Hy, IHitems.
Qed.

Lemma preorder_leaves_flat_list (l : list A) :
  preorder_leaves (flat_list l) = l.
Proof.
  unfold flat_list. simpl.
  induction l as [|a l IH]; [reflexivity|]. simpl. now rewrite IH.
Qed.

Lemma all_leaves_flat_list (items : list pyobj) :
  forallb (@is_leaf A) items = true ->
  PyList items = flat_list (preorder_leaves (PyList items)).
Proof.
  unfold flat_list. simpl. intros H. f_equal.
  induction items as [|[a|l] items IH]; simpl in *;
    [reflexivity| |discriminate].
  now rewrite <- IH.
Qed.

Lemma hollow_no_leaves (x : pyobj) :
  hollow x = true -> preorder_leaves x = [].
Proof.
  induction x as [a|items IH] using pyobj_rect_items; [discriminate|].
  simpl. induction IH as [|y items Hy _ IHitems]; [reflexivity|].
  simpl. intros H. apply andb_prop in H as [H1 H2].
  now rewrite Hy, IHitems.
Qed.

Lemma preorder_leaves_prune (x : pyobj) :
  preorder_leaves (prune x) = preorder_leaves x.
Proof.
  induction x as [a|items IH] using pyobj_rect_items; [reflexivity|].
  simpl. induction IH as [|y items Hy _ IHitems]; [reflexivity|].
  simpl. destruct (hollow y) eqn:Ey.
  - now rewrite IHitems, (hollow_no_leaves y Ey).
  - simpl. now rewrite Hy, IHitems.
Qed.

Lemma flatten_list_returns_iff (x : pyobj) (out : list A) :
  flatten_list_returns x out <-> out = preorder_leaves x.
Proof.
  split.
  - apply flatten_list_returns_inv.
  - intros ->. apply flatten_list_returns_preorder.
Qed.

(** ** The claims about [flatten_list] *)

(** C3. For every nesting of lists and leaves, [flatten_list] returns, and
    what it returns is exactly the sequence of the leaves in depth-first,
    left-to-right order; so the output has as many elements as the input
    has leaves. *)
Theorem flatten_list_preorder (x : pyobj) :
  flatten_list_returns x (preorder_leaves x) /\
  (forall output,
      flatten_list_returns x output ->
      output = preorder_leaves x /\ length output = count_leaves x).
Proof.
  split; [apply flatten_list_returns_preorder|].
  intros output H. apply flatten_list_returns_inv in H. subst output.
  split; [reflexivity|apply length_preorder_leaves].
Qed.

(** C4. A list whose elements are all leaves comes back unchanged; the
    empty list gives the empty list; flattening the output of
    [flatten_list] again changes nothing; and lists that hold no leaf, at
    any depth, add nothing to the output: an input made of them alone gives
    the empty list, and removing them everywhere or inserting one anywhere
    in a list leaves the output as it was. *)
Theorem flatten_list_flat_idempotent :
  (forall items output,
      forallb (@is_leaf A) items = true ->
      (flatten_list_returns (PyList items) output <->
       flat_list output = PyList items)) /\
  (forall output : list A,
      flatten_list_returns (PyList []) output <-> output = []) /\
  (forall (x : pyobj) output,
      flatten_list_returns x output ->
      forall output',
        flatten_list_returns (flat_list output) output' <->
        output' = output) /\
  (forall (x : pyobj) output,
      hollow x = true ->
      (flatten_list_returns x output <-> output = [])) /\
  (forall (x : pyobj) output,
      flatten_list_returns (prune x) output <->
      flatten_list_returns x output) /\
  (forall before (e : pyobj) after output,
      hollow e = true ->
      (flatten_list_returns (PyList (before ++ e :: after)) output <->
       flatten_list_returns (PyList (before ++ after)) output)).
Proof.
  split; [|split; [|split; [|split; [|split]]]].
  - intros items output Hflat. rewrite flatten_list_returns_iff. split.
    + intros ->. symmetry. now apply all_leaves_flat_list.
    + intros H. rewrite <- H. now rewrite preorder_leaves_flat_list.
  - intros output. now rewrite flatten_list_returns_iff.
  - intros x output _ output'. rewrite flatten_list_returns_iff.
    now rewrite preorder_leaves_flat_list.
  - intros x output H. rewrite flatten_list_returns_iff.
    now rewrite hollow_no_leaves.
  - intros x output. rewrite !flatten_list_returns_iff.
    now rewrite preorder_leaves_prune.
  - intros before e after output H. rewrite !flatten_list_returns_iff.
    simpl. rewrite !flat_map_app. simpl. now rewrite hollow_no_leaves.
Qed.

(** C10. The loop of [flatten_list] terminates: an iteration is possible
    whenever the stack is not empty, each iteration makes the total size of
    the stack strictly smaller, so no infinite run of iterations exists, and
    from every state, and in particular from the initial one, the loop
    reaches the empty stack and returns within as many iterations as that
    size. *)
Theorem flatten_list_terminates :
  (forall st : state, stack st <> [] -> exists st', loop_body st = Some st') /\
  (forall st st' : state,
      loop_body st = Some st' ->
      stack_weight (stack st') < stack_weight (stack st)) /\
  well_founded (@next A) /\
  (forall st : state, exists output,
      while_loop (stack_weight (stack st)) st = Some output) /\
  (forall x : pyobj, exists output,
      flatten_list_within (weight x) x = Some output /\
      flatten_list_returns x output).
Proof.
  split; [exact loop_body_progress|].
  split; [exact loop_body_decreases|].
  split.
  - apply (well_founded_lt_compat _ (fun st => stack_weight (stack st))).
    intros st' st. apply loop_body_decreases.
  - split.
    + intros st. eexists. now apply while_loop_enough.
    + intros x. exists (preorder_leaves x). split.
      * now apply flatten_list_within_enough.
      * apply flatten_list_returns_preorder.
Qed.

End Facts.

(** ** The examples of the test file *)

Example test_empty_list :
  flatten_list_within 3 (PyList [PyList []; PyList []]) = Some (@nil nat).
Proof. reflexivity. Qed.

Example test_depth_two :
  flatten_list_within 8
    (PyList [Leaf 1; PyList [Leaf 2; PyList [Leaf 3]; Leaf 4]; Leaf 5])
  = Some [1; 2; 3; 4; 5].
Proof. reflexivity. Qed.

Example test_depth_three :
  flatten_list_within 5 (PyList [PyList [PyList [PyList [Leaf 1]]]])
  = Some [1].
Proof. reflexivity. Qed.

Example test_not_a_list : flatten_list_within 1 (Leaf 7) = Some [7].
Proof. reflexivity. Qed.

Lemma flatten_list_flat_idempotent_witness :
  flatten_list_returns (PyList [Leaf 1; Leaf 2; Leaf 3]) [1; 2; 3] <->
  flat_list [1; 2; 3] = PyList [Leaf 1; Leaf 2; Leaf 3].
Proof.
  apply (proj1 (flatten_list_flat_idempotent nat)). reflexivity.
Defined.

End FlattenListFacts.

(* ===================================================================== *)
(** * More on the loop of [flatten_list]                                  *)
(* ===================================================================== *)

Module FlattenRunsFacts.
Import FlattenList FlattenRuns FlattenListFacts.

Section RunFacts.
Variable A : Type.

#[local] Abbreviation pyobj := (pyobj A).
#[local] Abbreviation state := (state A).

Lemma weight_positive (x : pyobj) : 1 <= weight x.
Proof. destruct x; simpl; lia. Qed.

Lemma length_le_stack_weight (s : list pyobj) :
  length s <= stack_weight s.
Proof.
  induction s as [|x s IH]; [apply Nat.le_refl|].
  unfold stack_weight in *. simpl. pose proof (weight_positive x). lia.
Qed.

(** An iteration takes exactly one list or one leaf off the total. *)
Lemma loop_body_weight (st st' : state) :
  loop_body st = Some st' ->
  stack_weight (stack st) = S (stack_weight (stack st')).
Proof.
  unfold loop_body.
  destruct (pop (stack st)) as [[rest [a|items]]|] eqn:E; [| |discriminate];
    apply pop_some in E; rewrite E; intros [= <-]; simpl;
    rewrite ?push_from_end_rev, !stack_weight_app, ?stack_weight_rev;
    unfold stack_weight; simpl; lia.
Qed.

Lemma while_loop_exact (fuel : nat) :
  forall st : state,
    while_loop fuel st
    = if stack_weight (stack st) <=? fuel
      then Some (result st ++ pending (stack st))
      else None.
Proof.
  induction fuel as [|fuel IH]; intros st.
  - destruct st as [[|x s] r]; simpl.
    + now rewrite app_nil_r.
    + pose proof (weight_positive x).
      destruct (stack_weight (x :: s) <=? 0) eqn:E; [|reflexivity].
      apply Nat.leb_le in E. unfold stack_weight in E. simpl in E. lia.
  - destruct (stack st) as [|x s] eqn:Es.
    + simpl. rewrite Es. simpl. now rewrite app_nil_r.
    + destruct (loop_body_progress st) as [st' Hst']; [now rewrite Es|].
      simpl. rewrite Es, Hst', IH. rewrite <- Es.
      rewrite (loop_body_weight _ Hst'), (loop_body_preserves _ Hst').
      reflexivity.
Qed.

(** X1. The loop makes exactly one iteration for each list and each
    non-list value of the input: given a bound on the iterations it returns
    the leaves when the bound is at least that count, and is still running
    when the bound is reached otherwise. *)
Theorem flatten_list_iterations (x : pyobj) (fuel : nat) :
  flatten_list_within fuel x
  = if weight x <=? fuel then Some (preorder_leaves x) else None.
Proof.
  unfold flatten_list_within. rewrite while_loop_exact. simpl.
  now rewrite stack_weight_initial, pending_initial.
Qed.

Lemma reaches_invariant (st0 st : state) :
  reaches st0 st ->
  result st ++ pending (stack st) = result st0 ++ pending (stack st0) /\
  stack_weight (stack st) <= stack_weight (stack st0).
Proof.
  induction 1 as [st|st st' st'' Hstep _ [IH1 IH2]].
  - split; [reflexivity|apply Nat.le_refl].
  - rewrite IH1, (loop_body_preserves _ Hstep).
    split; [reflexivity|].
    apply loop_body_decreases in Hstep. lia.
Qed.

(** X2. In every state the loop passes through, the values appended to
    [result] so far followed by the leaves of the stack, top first, are
    the final output; the stack holds at most as many items as the input
    has lists and leaves; and the loop, continued from there, returns that
    output. *)
Theorem flatten_list_loop_invariant (x : pyobj) (st : state) :
  reaches (initial x) st ->
  result st ++ pending (stack st) = preorder_leaves x /\
  length (stack st) <= weight x /\
  while_loop (stack_weight (stack st)) st = Some (preorder_leaves x).
Proof.
  intros H. apply reaches_invariant in H. destruct H as [Hinv Hle].
  simpl in Hinv, Hle.
  rewrite pending_initial in Hinv. rewrite stack_weight_initial in Hle.
  split; [exact Hinv|]. split.
  - pose proof (length_le_stack_weight (stack st)). lia.
  - rewrite while_loop_exact, Nat.leb_refl. now rewrite Hinv.
Qed.

(** X3. Flattening a list made of two parts gives the output for the first
    part followed by the output for the second. *)
Theorem flatten_list_concat (l1 l2 : list pyobj) (output : list A) :
  flatten_list_returns (PyList (l1 ++ l2)) output <->
  exists o1 o2,
    flatten_list_returns (PyList l1) o1 /\
    flatten_list_returns (PyList l2) o2 /\
    output = o1 ++ o2.
Proof.
  rewrite flatten_list_returns_iff. simpl. rewrite flat_map_app. split.
  - intros ->.
    exists (preorder_leaves (PyList l1)), (preorder_leaves (PyList l2)).
    split; [apply flatten_list_returns_preorder|].
    split; [apply flatten_list_returns_preorder|reflexivity].
  - intros (o1 & o2 & H1 & H2 & ->).
    apply flatten_list_returns_inv in H1, H2. now subst.
Qed.

End RunFacts.

Lemma preorder_leaves_map_leaves (A B : Type) (f : A -> B) (x : pyobj A) :
  preorder_leaves (map_leaves f x) = map f (preorder_leaves x).
Proof.
  induction x as [a|items IH] using pyobj_rect_items; [reflexivity|].
  simpl. induction IH as [|y items Hy _ IHitems]; [reflexivity|].
  simpl. now rewrite map_app, Hy, IHitems.
Qed.

(** X4. The values that are not lists are handed through as they are:
    applying a function to each of them in the input has the effect of
    applying it to each element of the output. *)
Theorem flatten_list_map_leaves (A B : Type) (f : A -> B)
    (x : pyobj A) (output : list A) :
  flatten_list_returns x output ->
  flatten_list_returns (map_leaves f x) (map f output).
Proof.
  intros H. apply flatten_list_returns_inv in H. subst output.
  rewrite <- preorder_leaves_map_leaves. apply flatten_list_returns_preorder.
Qed.

Lemma preorder_leaves_mirror (A : Type) (x : pyobj A) :
  preorder_leaves (mirror x) = rev (preorder_leaves x).
Proof.
  induction x as [a|items IH] using pyobj_rect_items; [reflexivity|].
  simpl. induction IH as [|y items Hy _ IHitems]; [reflexivity|].
  simpl. rewrite flat_map_app, IHitems. simpl.
  now rewrite app_nil_r, Hy, rev_app_distr.
Qed.

(** X5. Reading the input from right to left at every depth reverses the
    output. *)
Theorem flatten_list_mirror (A : Type) (x : pyobj A) (output : list A) :
  flatten_list_returns x output ->
  flatten_list_returns (mirror x) (rev output).
Proof.
  intros H. apply flatten_list_returns_inv in H. subst output.
  rewrite <- preorder_leaves_mirror. apply flatten_list_returns_preorder.
Qed.

Lemma flatten_list_loop_invariant_witness :
  [2] ++ pending [@Leaf nat 1; Leaf 3] = [2; 3; 1] /\
  length [@Leaf nat 1; Leaf 3] <= 5 /\
  while_loop 2 (State [Leaf 1; Leaf 3] [2]) = Some [2; 3; 1].
Proof.
  apply (@flatten_list_loop_invariant nat
           (PyList [Leaf 2; PyList [Leaf 3]; Leaf 1])
           (State [Leaf 1; Leaf 3] [2])).
  eapply reaches_step; [reflexivity|].
  eapply reaches_step; [reflexivity|].
  eapply reaches_step; [reflexivity|].
  apply reaches_here.
Defined.

Lemma flatten_list_map_leaves_witness :
  flatten_list_returns
    (map_leaves S (PyList [Leaf 1; PyList [Leaf 2]])) (map S [1; 2]).
Proof.
  apply flatten_list_map_leaves. exists 4. reflexivity.
Defined.

Lemma flatten_list_mirror_witness :
  flatten_list_returns
    (mirror (PyList [Leaf 1; PyList [Leaf 2; Leaf 3]])) (rev [1; 2; 3]).
Proof.
  apply flatten_list_mirror. exists 5. reflexivity.
Defined.

End FlattenRunsFacts.

(* ===================================================================== *)
(** * Properties of closecustomers.py                                     *)
(* ===================================================================== *)

Module CloseCustomersFacts.
Import PyRuntime CloseCustomers.

(** ** validate_customer and parse_customer_data *)

(** [float] raises nothing but TypeError, ValueError and OverflowError. *)
Lemma py_float_raises (B : builtins) (v : pyjson) (e : exception) :
  py_float B v = Raises e ->
  e = TypeError \/ e = ValueError \/ e = OverflowError.
Proof.
  destruct v; cbn; try (intros [= <-]; auto).
  - unfold float_of_int.
    destruct (binary_normalize prec emax n 0 false); intros [= <-]; auto.
  - destruct (float_of_str B s); intros [= <-]; auto.
Qed.

(** What [validate_customer] does on a dict, case by case. *)
Lemma validate_customer_dict (B : builtins)
    (members : list (string * pyjson)) (log : list warning) :
  validate_customer B (PDict members) log =
  match lookup "name" members, lookup "user_id" members,
        lookup "latitude" members, lookup "longitude" members with
  | Some _, Some _, Some lat, Some lon =>
      match py_float B lat with
      | Raises ValueError => (Returns false, log ++ [BadLatitude lat])
      | Raises e => (Raises e, log)
      | Returns _ =>
          match py_float B lon with
          | Raises ValueError => (Returns false, log ++ [BadLongitude lon])
          | Raises e => (Raises e, log)
          | Returns _ => (Returns true, log)
          end
      end
  | _, _, _, _ =>
      (Returns false,
       log ++ [MissingKeys (PDict members) (missing_keys_of members)])
  end.
Proof.
  unfold validate_customer, parses_as_float, try_except, bind, lift, ret,
    logging_warning, keys_missing_from, missing_keys_of.
  cbn [all_keys_in EXPECTED_KEYS py_in obind getitem py_set].
  destruct (lookup "name" members); cbn [obind negb]; [|reflexivity].
  destruct (lookup "user_id" members); cbn [obind negb]; [|reflexivity].
  destruct (lookup "latitude" members) as [lat|]; cbn [obind negb];
    [|reflexivity].
  destruct (lookup "longitude" members) as [lon|]; cbn [obind negb];
    [|reflexivity].
  destruct (py_float B lat) as [x|e] eqn:Ex; cbn [negb].
  - destruct (py_float B lon) as [y|e] eqn:Ey; cbn [negb];
      [reflexivity|].
    apply py_float_raises in Ey.
    destruct Ey as [ -> | [ -> | -> ] ]; reflexivity.
  - apply py_float_raises in Ex.
    destruct Ex as [ -> | [ -> | -> ] ]; reflexivity.
Qed.

(** A value that is not a container has no [in]: TypeError. *)
Lemma validate_customer_scalar (B : builtins) (log : list warning) :
  validate_customer B PNone log = (Raises TypeError, log) /\
  (forall b, validate_customer B (PBool b) log = (Raises TypeError, log)) /\
  (forall n, validate_customer B (PInt n) log = (Raises TypeError, log)) /\
  (forall f, validate_customer B (PFloat f) log = (Raises TypeError, log)).
Proof. repeat split. Qed.

(** C5. [validate_customer] does not return a boolean for every record: on
    a record that has the four keys and whose latitude is [None], which
    cannot be parsed as a float, it raises TypeError instead of returning
    False. *)
Theorem validate_customer_null_latitude_raises (B : builtins)
    (log : list warning) :
  validate_customer B null_latitude_record log = (Raises TypeError, log).
Proof. reflexivity. Qed.

Lemma parse_each_undecodable (B : builtins) (customer_json : string)
    (rest : list string) (customers : list (Customer pyjson pyjson))
    (log : list warning) :
  json_loads B customer_json = Raises ValueError ->
  parse_each B (customer_json :: rest) customers log
  = parse_each B rest customers (log ++ [ParseError customer_json]).
Proof. intros H. simpl. now rewrite H. Qed.

Lemma parse_each_raises (B : builtins) (customer_json : string)
    (customer_data : pyjson) (rest : list string)
    (customers : list (Customer pyjson pyjson))
    (log log' : list warning) (e : exception) :
  json_loads B customer_json = Returns customer_data ->
  validate_customer B customer_data log = (Raises e, log') ->
  parse_each B (customer_json :: rest) customers log = (Raises e, log').
Proof. intros H Hv. simpl. rewrite H. unfold bind. now rewrite Hv. Qed.

(** C6. An exception does escape [parse_customer_data]: when a line decodes
    to a record whose latitude is [None], the TypeError of
    [validate_customer] ends the call, whatever lines follow; the record
    is not just left out. *)
Theorem parse_customer_data_null_latitude_raises (B : builtins)
    (rest : list string) (log : list warning) :
  json_loads B null_latitude_line = Returns null_latitude_record ->
  parse_customer_data B (null_latitude_line :: rest) log
  = (Raises TypeError, log).
Proof.
  intros H. unfold parse_customer_data.
  now apply parse_each_raises with (customer_data := null_latitude_record).
Qed.

(** On a plain record [validate_customer] returns a boolean, and when it
    is True the Customer is built without an exception. *)
Lemma validate_customer_plain (B : builtins)
    (members : list (string * pyjson)) (log : list warning) :
  plain_record B (PDict members) ->
  exists (valid : bool) log',
    validate_customer B (PDict members) log = (Returns valid, log') /\
    (valid = true ->
     exists customer, build_customer B (PDict members) = Returns customer).
Proof.
  intros Hplain. rewrite validate_customer_dict.
  unfold build_customer. cbn [getitem plain_record] in *.
  destruct (lookup "name" members) as [nm|];
    [|eexists _, _; split; [reflexivity|discriminate]].
  destruct (lookup "user_id" members) as [uid|];
    [|eexists _, _; split; [reflexivity|discriminate]].
  destruct (lookup "latitude" members) as [lat|] eqn:Elat;
    [|eexists _, _; split; [reflexivity|discriminate]].
  destruct (lookup "longitude" members) as [lon|] eqn:Elon;
    [|eexists _, _; split; [reflexivity|discriminate]].
  pose proof (Hplain "latitude"%string lat (or_introl eq_refl) Elat) as Hlat.
  pose proof (Hplain "longitude"%string lon (or_intror eq_refl) Elon)
    as Hlon.
  unfold float_or_value_error in Hlat, Hlon. cbn [obind].
  destruct (py_float B lat) as [x|e]; [|subst e].
  - destruct (py_float B lon) as [y|e]; [|subst e].
    + eexists _, _. split; [reflexivity|]. intros _. cbn [obind]. eauto.
    + eexists _, _. split; [reflexivity|discriminate].
  - eexists _, _. split; [reflexivity|discriminate].
Qed.

(** On lines that decode to plain records, or do not decode, no exception
    escapes: each line adds a customer or is left out. *)
Lemma parse_each_plain (B : builtins) (all_customers_json : list string) :
  Forall
    (fun customer_json =>
       match json_loads B customer_json with
       | Returns customer_data => plain_record B customer_data
       | Raises e => e = ValueError
       end) all_customers_json ->
  forall customers log,
  exists customers' log',
    parse_each B all_customers_json customers log
    = (Returns (customers ++ customers'), log') /\
    length customers' <= length all_customers_json.
Proof.
  induction 1 as [|customer_json rest Hline _ IH]; intros customers log.
  - exists [], log. simpl. now rewrite app_nil_r.
  - cbn [parse_each].
    destruct (json_loads B customer_json) as [customer_data|e];
      [|subst e; cbn [is_instance exception_eqb]].
    + destruct customer_data as [| | | | | |members]; try contradiction.
      destruct (validate_customer_plain log Hline)
        as (valid & log1 & Hvalid & Hbuild).
      unfold bind at 1. rewrite Hvalid.
      destruct valid; cbn [negb].
      * destruct (Hbuild eq_refl) as [customer Hc].
        unfold bind, lift. rewrite Hc.
        destruct (IH (customers ++ [customer]) log1)
          as (c' & l' & -> & Hlen).
        exists (customer :: c'), l'.
        rewrite <- app_assoc. simpl. split; [reflexivity|lia].
      * destruct (IH customers log1) as (c' & l' & -> & Hlen).
        exists c', l'. simpl. split; [reflexivity|lia].
    + unfold bind, logging_warning.
      destruct (IH customers (log ++ [ParseError customer_json]))
        as (c' & l' & -> & Hlen).
      exists c', l'. simpl. split; [reflexivity|lia].
Qed.

(** ** Binary64 arithmetic *)

Lemma SFmul_comm (x y : spec_float) :
  SFmul prec emax x y = SFmul prec emax y x.
Proof.
  destruct x as [sx|sx| |sx mx ex], y as [sy|sy| |sy my ey]; simpl;
    rewrite ?(xorb_comm sx sy); try reflexivity.
  now rewrite Pos.mul_comm, Z.add_comm.
Qed.

Lemma float_mul_comm (x y : float) : (x * y = y * x)%float.
Proof. apply Prim2SF_inj. rewrite !mul_spec. apply SFmul_comm. Qed.

(** Rounding treats a magnitude alike under either sign. *)
Lemma SFabs_binary_round_aux (s s' : bool) (m e : Z) (l : SpecFloat.location) :
  SFabs (binary_round_aux prec emax s m e l)
  = SFabs (binary_round_aux prec emax s' m e l).
Proof.
  unfold binary_round_aux.
  destruct (shr_fexp prec emax m e l) as [mrs' e'].
  destruct (shr_fexp prec emax _ e' loc_Exact) as [mrs'' e''].
  destruct (shr_m mrs''); try reflexivity.
  destruct (Z.leb _ _); reflexivity.
Qed.

Lemma SFabs_binary_round (s s' : bool) (m : positive) (e : Z) :
  SFabs (binary_round prec emax s m e) = SFabs (binary_round prec emax s' m e).
Proof.
  unfold binary_round.
  destruct (shl_align _ _ _) as [mz ez]. apply SFabs_binary_round_aux.
Qed.

Lemma SFabs_binary_normalize_opp (m e : Z) :
  SFabs (binary_normalize prec emax (- m) e false)
  = SFabs (binary_normalize prec emax m e false).
Proof. destruct m; simpl; try reflexivity; apply SFabs_binary_round. Qed.

Lemma SFabs_sub_swap (x y : spec_float) :
  SFabs (SFsub prec emax x y) = SFabs (SFsub prec emax y x).
Proof.
  destruct x as [sx|sx| |sx mx ex], y as [sy|sy| |sy my ey]; simpl;
    try reflexivity;
    try (destruct sx, sy; reflexivity).
  rewrite (Z.min_comm ey ex).
  rewrite <- SFabs_binary_normalize_opp. f_equal. f_equal. lia.
Qed.

Lemma float_abs_sub_swap (x y : float) : (abs (x - y) = abs (y - x))%float.
Proof.
  apply Prim2SF_inj. rewrite !abs_spec, !sub_spec. apply SFabs_sub_swap.
Qed.

(** ** distance *)

Lemma acos_argument_symmetric (B : builtins) (a b : Coordinate) :
  acos_argument B a b = acos_argument B b a.
Proof.
  unfold acos_argument. cbn [latitude longitude].
  rewrite (float_abs_sub_swap (math_radians (longitude b))).
  destruct (math_sin B (math_radians (latitude a))) as [s1|],
           (math_sin B (math_radians (latitude b))) as [s2|],
           (math_cos B (math_radians (latitude a))) as [c1|],
           (math_cos B (math_radians (latitude b))) as [c2|];
    simpl; try reflexivity.
  now rewrite (float_mul_comm s2), (float_mul_comm c2).
Qed.

(** C7. [distance] is symmetric: for all coordinates a and b, and whatever
    the math library answers, [distance(a, b)] and [distance(b, a)] end the
    same way: both raise the domain error, or both return the same float;
    and unless that float is NaN, [==] holds between the two results. *)
Theorem distance_symmetric (B : builtins) (a b : Coordinate) :
  distance B a b = distance B b a /\
  (forall d,
      distance B a b = Returns d ->
      is_nan d = false ->
      exists d', distance B b a = Returns d' /\ (d =? d')%float = true).
Proof.
  assert (H : distance B a b = distance B b a)
    by (unfold distance; now rewrite acos_argument_symmetric).
  split; [exact H|].
  intros d Hd Hnan. exists d. rewrite <- H. split; [exact Hd|].
  unfold is_nan in Hnan. now apply negb_false_iff in Hnan.
Qed.

(** The sum that reaches [math.acos] for 8 degrees north taken twice:
    0.019369152030840567 + 0.9806308479691596 * 1.0, which binary64
    rounds to 1.0000000000000002. *)
Lemma acos_argument_eight_north (B : builtins) :
  libm_at_eight_north B ->
  acos_argument B eight_north eight_north
  = Returns 0x1.0000000000001p+0%float.
Proof.
  intros (Hsin & Hcos & Hcos0).
  unfold acos_argument, eight_north. cbn [latitude longitude].
  change (abs (math_radians 0 - math_radians 0))%float with 0%float.
  rewrite Hsin, Hcos, Hcos0. reflexivity.
Qed.

(** C2. The argument handed to [math.acos] is not always within [-1, 1]:
    for the point 8 degrees north, 0 degrees east taken twice, the sum
    reaches [math.acos] as 1.0000000000000002, one unit in the last place
    above 1. The sum is passed on as computed; nothing clamps it. *)
Theorem acos_argument_above_one (B : builtins) :
  libm_at_eight_north B ->
  acos_argument B eight_north eight_north
  = Returns 0x1.0000000000001p+0%float /\
  (1 <? 0x1.0000000000001p+0)%float = true.
Proof.
  intros Hlibm. split; [now apply acos_argument_eight_north|reflexivity].
Qed.

(** C1. [distance(x, x)] is not 0 for every x: for the point 8 degrees
    north, 0 degrees east it raises ValueError, the argument of
    [math.acos] being above 1. *)
Theorem distance_same_point_raises (B : builtins) :
  libm_at_eight_north B ->
  acos_domain_error B ->
  distance B eight_north eight_north = Raises ValueError.
Proof.
  intros Hlibm Hacos. unfold distance.
  rewrite (acos_argument_eight_north Hlibm).
  cbn [obind]. unfold acos_domain_error in Hacos.
  rewrite Hacos by reflexivity. reflexivity.
Qed.

(** Where the sum is exactly 1, and [acos(1.0)] is 0, the distance is 0. *)
Lemma distance_dublin_dublin (B : builtins) :
  libm_at_dublin B ->
  distance B DUBLIN_OFFICE DUBLIN_OFFICE = Returns 0%float.
Proof.
  intros (Hsin & Hcos & Hcos0 & Hacos).
  unfold distance, acos_argument, DUBLIN_OFFICE in *.
  cbn [latitude longitude] in *.
  match goal with
  | |- context [math_cos B (abs ?d)] =>
      change (abs d) with 0%float
  end.
  rewrite Hsin, Hcos, Hcos0. cbn [domain obind].
  match goal with
  | |- context [math_acos B ?x] => change x with 1%float
  end.
  rewrite Hacos. reflexivity.
Qed.

(** ** get_customers_in_range *)

Section RangeFacts.
Variables N U : Type.
Variable B : builtins.

#[local] Abbreviation customer := (Customer N U).

Lemma keep_in_range_filter (customers : list customer) :
  forall acc,
    Forall (has_distance B) customers ->
    keep_in_range B customers acc
    = Returns (acc ++ filter (in_range B) customers).
Proof.
  induction customers as [|c customers IH]; intros acc Hall; simpl.
  - now rewrite app_nil_r.
  - inversion Hall as [|? ? [d Hd] Hrest]; subst.
    unfold in_range. rewrite Hd. cbn [obind].
    destruct (d <=? RANGE_IN_KM)%float; rewrite IH by assumption.
    + now rewrite <- app_assoc.
    + reflexivity.
Qed.

Lemma keep_in_range_returns (customers : list customer) :
  forall acc out,
    keep_in_range B customers acc = Returns out ->
    Forall (has_distance B) customers.
Proof.
  induction customers as [|c customers IH]; intros acc out; simpl.
  - constructor.
  - destruct (distance B (location c) DUBLIN_OFFICE) as [d|e] eqn:Hd;
      cbn [obind]; [|discriminate].
    intros H. constructor; [now exists d|].
    destruct (d <=? RANGE_IN_KM)%float; eapply IH; eassumption.
Qed.

Lemma keep_in_range_raises (customers : list customer) :
  forall acc e,
    keep_in_range B customers acc = Raises e ->
    exists c, In c customers /\
              distance B (location c) DUBLIN_OFFICE = Raises e.
Proof.
  induction customers as [|c customers IH]; intros acc e; simpl.
  - discriminate.
  - destruct (distance B (location c) DUBLIN_OFFICE) as [d|e'] eqn:Hd;
      cbn [obind].
    + intros H.
      destruct (d <=? RANGE_IN_KM)%float; apply IH in H;
        destruct H as (c' & Hin & Hc'); exists c'; auto.
    + intros [= ->]. exists c. auto.
Qed.

Lemma in_range_iff (c : customer) :
  in_range B c = true <->
  exists d, distance B (location c) DUBLIN_OFFICE = Returns d /\
            (d <=? RANGE_IN_KM)%float = true.
Proof.
  unfold in_range.
  destruct (distance B (location c) DUBLIN_OFFICE) as [d|e]; split.
  - intros H. now exists d.
  - now intros (d' & [= <-] & H).
  - discriminate.
  - now intros (d' & [=] & _).
Qed.

(** X25. When [get_customers_in_range] returns, it has kept exactly the
    customers whose distance to [DUBLIN_OFFICE] is at most [RANGE_IN_KM],
    in their order: the empty list gives the empty list; when [distance]
    returns for every customer the result is the list filtered by the
    test; whenever a list is returned it is that one; an exception comes
    from [distance] on one of the customers; and a customer located at
    [DUBLIN_OFFICE] is in every list returned, the C library answering
    there as it does. *)
Theorem get_customers_in_range_retains :
  get_customers_in_range B (@nil customer) = Returns [] /\
  (forall customers : list customer,
      Forall (has_distance B) customers ->
      get_customers_in_range B customers
      = Returns (filter (in_range B) customers)) /\
  (forall customers out : list customer,
      get_customers_in_range B customers = Returns out ->
      out = filter (in_range B) customers /\
      forall c,
        In c out <->
        In c customers /\
        exists d, distance B (location c) DUBLIN_OFFICE = Returns d /\
                  (d <=? RANGE_IN_KM)%float = true) /\
  (forall (customers : list customer) e,
      get_customers_in_range B customers = Raises e ->
      exists c, In c customers /\
                distance B (location c) DUBLIN_OFFICE = Raises e) /\
  (libm_at_dublin B ->
   forall (customers out : list customer) c,
     get_customers_in_range B customers = Returns out ->
     In c customers -> location c = DUBLIN_OFFICE -> In c out).
Proof.
  assert (Hret : forall customers out : list customer,
             get_customers_in_range B customers = Returns out ->
             out = filter (in_range B) customers).
  { intros customers out H. unfold get_customers_in_range in H.
    pose proof (keep_in_range_returns _ _ H) as Hall.
    rewrite (keep_in_range_filter [] Hall) in H. now injection H as <-. }
  split; [reflexivity|].
  split; [intros customers Hall; now apply keep_in_range_filter|].
  split; [|split].
  - intros customers out H. apply Hret in H. subst out.
    split; [reflexivity|]. intros c.
    now rewrite filter_In, in_range_iff.
  - intros customers e. apply keep_in_range_raises.
  - intros Hlibm customers out c H Hin Hloc. apply Hret in H. subst out.
    apply filter_In. split; [assumption|].
    unfold in_range. rewrite Hloc, (distance_dublin_dublin Hlibm).
    reflexivity.
Qed.

End RangeFacts.

(** The sum that reaches [math.acos] for [near_office] and [DUBLIN_OFFICE]:
    0.6434829602245257 + 0.3565170397754745 * 1.0, which binary64 rounds to
    1.0000000000000002. *)
Lemma acos_argument_near_office (B : builtins) :
  libm_near_office B ->
  libm_at_dublin B ->
  acos_argument B near_office DUBLIN_OFFICE
  = Returns 0x1.0000000000001p+0%float.
Proof.
  intros (Hsin & Hcos & Hcosd) (Hsin' & Hcos' & _ & _).
  unfold acos_argument, near_office, DUBLIN_OFFICE in *.
  cbn [latitude longitude] in *.
  match goal with
  | |- context [math_cos B (abs ?d)] =>
      change (abs d) with 0x1.21764p-37%float
  end.
  rewrite Hsin, Hcos, Hsin', Hcos', Hcosd. reflexivity.
Qed.

Lemma distance_near_office (B : builtins) :
  libm_near_office B ->
  libm_at_dublin B ->
  acos_domain_error B ->
  distance B near_office DUBLIN_OFFICE = Raises ValueError.
Proof.
  intros Hnear Hdublin Hacos. unfold distance.
  rewrite (acos_argument_near_office Hnear Hdublin).
  cbn [obind]. unfold acos_domain_error in Hacos.
  rewrite Hacos by reflexivity. reflexivity.
Qed.

(** C8. [get_customers_in_range] does not keep every customer within
    [RANGE_IN_KM] of [DUBLIN_OFFICE]: for a customer less than a
    millimetre from it the argument of [math.acos] is
    1.0000000000000002 and [distance] raises ValueError, which ends
    [get_customers_in_range], whatever customers follow; and when a
    customer located at [DUBLIN_OFFICE] itself, whose distance is 0,
    comes first, no list is returned that could include it. *)
Theorem get_customers_in_range_near_office_raises (B : builtins)
    (rest : list (Customer string Z)) :
  libm_near_office B ->
  libm_at_dublin B ->
  acos_domain_error B ->
  acos_argument B (location next_door) DUBLIN_OFFICE
  = Returns 0x1.0000000000001p+0%float /\
  distance B (location next_door) DUBLIN_OFFICE = Raises ValueError /\
  get_customers_in_range B (next_door :: rest) = Raises ValueError /\
  distance B (location handsome_jack) DUBLIN_OFFICE = Returns 0%float /\
  get_customers_in_range B (handsome_jack :: next_door :: rest)
  = Raises ValueError.
Proof.
  intros Hnear Hdublin Hacos.
  pose proof (distance_near_office Hnear Hdublin Hacos) as Hd.
  pose proof (distance_dublin_dublin Hdublin) as Hd0.
  split; [exact (acos_argument_near_office Hnear Hdublin)|].
  split; [exact Hd|]. split; [|split; [exact Hd0|]].
  - unfold get_customers_in_range. cbn [keep_in_range location next_door].
    now rewrite Hd.
  - unfold get_customers_in_range.
    cbn [keep_in_range location next_door handsome_jack].
    rewrite Hd0. cbn [obind].
    change (0 <=? RANGE_IN_KM)%float with true. cbn iota.
    cbn [keep_in_range location]. now rewrite Hd.
Qed.


(** ** format_customers *)

Section SortFacts.
Variables (T : Type) (key : T -> Z).

#[local] Abbreviation le_key := (fun a b : T => (key a <= key b)%Z).

Lemma insert_by_key_perm (x : T) (l : list T) :
  Permutation (insert_by_key key Z.ltb x l) (x :: l).
Proof.
  induction l as [|y l IH]; simpl; [reflexivity|].
  destruct (key y <? key x)%Z; [|reflexivity].
  rewrite IH. apply perm_swap.
Qed.

Lemma sorted_by_key_perm (l : list T) :
  Permutation (sorted_by_key key Z.ltb l) l.
Proof.
  induction l as [|x l IH]; simpl; [reflexivity|].
  rewrite insert_by_key_perm. now constructor.
Qed.

Lemma insert_by_key_sorted (x : T) (l : list T) :
  Sorted le_key l -> Sorted le_key (insert_by_key key Z.ltb x l).
Proof.
  induction l as [|y l IH]; simpl; intros Hs.
  - repeat constructor.
  - destruct (key y <? key x)%Z eqn:E.
    + apply Z.ltb_lt in E. inversion Hs as [|? ? Hs' Hhd]; subst.
      constructor; [now apply IH|].
      destruct l as [|z l]; simpl.
      * constructor. lia.
      * destruct (key z <? key x)%Z; constructor.
        -- now inversion Hhd.
        -- lia.
    + apply Z.ltb_ge in E. constructor; [assumption|]. now constructor.
Qed.

Lemma sorted_by_key_sorted (l : list T) :
  Sorted le_key (sorted_by_key key Z.ltb l).
Proof.
  induction l as [|x l IH]; simpl; [constructor|].
  now apply insert_by_key_sorted.
Qed.

(** The sort is stable: the items of one key keep their order, which with
    the two lemmas above fixes the result of any stable sort. *)
Lemma insert_by_key_stable (k : Z) (x : T) (l : list T) :
  filter (fun y => (key y =? k)%Z) (insert_by_key key Z.ltb x l)
  = filter (fun y => (key y =? k)%Z) (x :: l).
Proof.
  induction l as [|y l IH]; [reflexivity|].
  cbn [insert_by_key]. destruct (key y <? key x)%Z eqn:E; [|reflexivity].
  apply Z.ltb_lt in E. cbn [filter] in *. rewrite IH.
  destruct (key x =? k)%Z eqn:Ex, (key y =? k)%Z eqn:Ey; try reflexivity.
  apply Z.eqb_eq in Ex, Ey. lia.
Qed.

Lemma sorted_by_key_stable (k : Z) (l : list T) :
  filter (fun y => (key y =? k)%Z) (sorted_by_key key Z.ltb l)
  = filter (fun y => (key y =? k)%Z) l.
Proof.
  induction l as [|x l IH]; [reflexivity|].
  cbn [sorted_by_key fold_right]. rewrite insert_by_key_stable.
  cbn [filter]. now rewrite <- IH.
Qed.

(** Two ascending arrangements of the same items, no key occurring twice,
    are the same list. *)
Lemma ascending_unique (l1 : list T) :
  forall l2,
    Permutation l1 l2 -> NoDup (map key l1) ->
    Sorted le_key l1 -> Sorted le_key l2 -> l1 = l2.
Proof.
  assert (Htrans : Relations_1.Transitive le_key)
    by (intros a b c; simpl; lia).
  induction l1 as [|a l1 IH]; intros l2 Hp Hnd Hs1 Hs2.
  - now apply Permutation_nil in Hp.
  - destruct l2 as [|b l2];
      [apply Permutation_sym, Permutation_nil in Hp; discriminate|].
    apply Sorted_StronglySorted in Hs1, Hs2; try assumption.
    inversion Hs1 as [|? ? Hs1' Hall1]; subst.
    inversion Hs2 as [|? ? Hs2' Hall2]; subst.
    inversion Hnd as [|? ? Hnotin Hnd']; subst.
    assert (Hab : a = b).
    { assert (Ha : In a (b :: l2))
        by (eapply Permutation_in; [exact Hp|now left]).
      assert (Hb : In b (a :: l1))
        by (eapply Permutation_in;
            [apply Permutation_sym; exact Hp|now left]).
      destruct Ha as [Ha|Ha]; [now symmetry|].
      destruct Hb as [Hb|Hb]; [assumption|].
      exfalso. apply Hnotin.
      rewrite Forall_forall in Hall1, Hall2.
      specialize (Hall1 _ Hb). specialize (Hall2 _ Ha). simpl in *.
      replace (key a) with (key b) by lia. now apply in_map. }
    subst b. f_equal.
    apply IH.
    + now apply Permutation_cons_inv in Hp.
    + assumption.
    + now apply StronglySorted_Sorted.
    + now apply StronglySorted_Sorted.
Qed.

Lemma sorted_by_key_perm_invariant (l1 l2 : list T) :
  Permutation l1 l2 -> NoDup (map key l1) ->
  sorted_by_key key Z.ltb l1 = sorted_by_key key Z.ltb l2.
Proof.
  intros Hp Hnd. apply ascending_unique.
  - rewrite !sorted_by_key_perm. exact Hp.
  - eapply Permutation_NoDup; [|exact Hnd].
    apply Permutation_map, Permutation_sym, sorted_by_key_perm.
  - apply sorted_by_key_sorted.
  - apply sorted_by_key_sorted.
Qed.

End SortFacts.

(** The loop of lines 180-181 when every line is formatted. *)
Lemma format_each_returns (N U : Type) (format_id : U -> outcome string)
    (format_name : N -> outcome string) (f : Customer N U -> string)
    (sorted_customers : list (Customer N U)) :
  (forall c, In c sorted_customers ->
             format_line format_id format_name c = Returns (f c)) ->
  forall result,
    format_each format_id format_name sorted_customers result
    = Returns (result ++ map f sorted_customers).
Proof.
  induction sorted_customers as [|c l IH]; intros Hall result; cbn.
  - now rewrite app_nil_r.
  - rewrite (Hall c) by now left. cbn [obind].
    rewrite IH by (intros c' Hc'; apply Hall; now right).
    now rewrite <- app_assoc.
Qed.

(** [sep.join(lines)] is the concatenation of the lines with the separator
    between them. *)
Lemma join_concat (sep : string) (lines : list string) :
  join sep lines = String.concat sep lines.
Proof.
  induction lines as [|line [|line' rest] IH]; cbn in *;
    [reflexivity|reflexivity|now rewrite IH].
Qed.

Lemma newline_char : newline = String "010"%char EmptyString.
Proof. reflexivity. Qed.

(** [format_customers] in one equation: the message on the empty list, one
    line per customer of the sorted list otherwise. *)
Lemma format_named_customers_eq (B : builtins)
    (customers : list (Customer string Z)) :
  format_named_customers B customers =
  Returns
    match customers with
    | [] =>
        ("No customers within " ++ format_float B RANGE_IN_KM ++ " km.")%string
    | _ :: _ =>
        String.concat (String "010"%char EmptyString)
          (map (fun c => (str_of_int (user_id c) ++ ": " ++ name c)%string)
             (sorted_by_key user_id Z.ltb customers))
    end.
Proof.
  unfold format_named_customers, format_customers.
  rewrite (@format_each_returns _ _ _ _
             (fun c => (str_of_int (user_id c) ++ ": " ++ name c)%string))
    by reflexivity.
  cbn [app obind].
  destruct customers as [|c customers]; [reflexivity|].
  destruct (sorted_by_key user_id Z.ltb (c :: customers)) as [|c' l] eqn:E.
  - pose proof (sorted_by_key_perm user_id (c :: customers)) as Hp.
    rewrite E in Hp. now apply Permutation_nil in Hp.
  - now rewrite join_concat, newline_char.
Qed.

(** X26. On customers whose names are [str] and whose user ids are [int],
    [format_customers] returns, for a list that is not empty, the lines
    "user_id: name" of the customers put in ascending order of user id,
    with one newline character between two lines; a reordering of
    customers with distinct user ids gives the same text; and for the
    empty list it returns "No customers within 100.0 km.", 100.0 being how
    Python writes [RANGE_IN_KM]. *)
Theorem format_customers_lines (B : builtins) :
  (forall customers : list (Customer string Z),
      customers <> [] ->
      exists sorted_customers,
        Permutation sorted_customers customers /\
        ascending sorted_customers /\
        format_named_customers B customers
        = Returns
            (String.concat (String "010"%char EmptyString)
               (map (fun c =>
                       (DecimalString.NilZero.string_of_int
                          (Z.to_int (user_id c))
                        ++ ": " ++ name c)%string)
                  sorted_customers))) /\
  (forall customers customers' : list (Customer string Z),
      Permutation customers customers' ->
      NoDup (map user_id customers) ->
      format_named_customers B customers
      = format_named_customers B customers') /\
  (formats_range B ->
   format_named_customers B []
   = Returns "No customers within 100.0 km."%string).
Proof.
  split; [|split].
  - intros customers Hne.
    exists (sorted_by_key user_id Z.ltb customers).
    split; [apply sorted_by_key_perm|].
    split; [apply sorted_by_key_sorted|].
    rewrite format_named_customers_eq.
    destruct customers; [contradiction|reflexivity].
  - intros customers customers' Hp Hnd.
    rewrite !format_named_customers_eq.
    rewrite (sorted_by_key_perm_invariant user_id Hp Hnd).
    destruct customers, customers'; try reflexivity.
    + now apply Permutation_nil in Hp.
    + apply Permutation_sym in Hp. now apply Permutation_nil in Hp.
  - intros Hfmt. rewrite format_named_customers_eq.
    unfold formats_range in Hfmt. now rewrite Hfmt.
Qed.

(** The loop of lines 180-181 stops at the first name that cannot be
    encoded. *)
Lemma format_each_non_ascii_name
    (sorted_customers : list (Customer string Z)) (c : Customer string Z) :
  In c sorted_customers ->
  is_ascii (name c) = false ->
  forall result,
    format_each (fun n => Returns (str_of_int n)) encode_ascii
      sorted_customers result
    = Raises UnicodeEncodeError.
Proof.
  intros Hin Hname.
  induction sorted_customers as [|x l IH]; intros result; [contradiction|].
  cbn [format_each format_line obind]. unfold encode_ascii at 1.
  destruct (is_ascii (name x)) eqn:Ex; cbn [obind]; [|reflexivity].
  apply IH. destruct Hin as [->|Hin]; [congruence|assumption].
Qed.

(** C9. [format_customers] does not return the lines for every list of
    customers: when the name of one of them is a [unicode] string with a
    character that is not ASCII, as [json.loads] returns for such a name,
    the [format] call of line 181 raises UnicodeEncodeError, and no text
    is returned, whatever the other customers are. *)
Theorem format_customers_non_ascii_name_raises (B : builtins)
    (customers : list (Customer string Z)) (c : Customer string Z) :
  In c customers ->
  is_ascii (name c) = false ->
  format_decoded_customers B customers = Raises UnicodeEncodeError.
Proof.
  intros Hin Hname. unfold format_decoded_customers, format_customers.
  rewrite (@format_each_non_ascii_name _ c); [reflexivity| |assumption].
  eapply Permutation_in; [|exact Hin].
  apply Permutation_sym, sorted_by_key_perm.
Qed.

Example test_format_customers (B : builtins) :
  format_named_customers B [tyrion; arya]
  = Returns
      ("1: Tyrion Lannister" ++ String "010"%char "2: Arya Stark")%string /\
  format_named_customers B [arya; tyrion]
  = Returns
      ("1: Tyrion Lannister" ++ String "010"%char "2: Arya Stark")%string.
Proof. split; reflexivity. Qed.

(** With names that are ASCII the [unicode] strings are formatted like the
    [str] ones. *)
Example format_decoded_customers_ascii (B : builtins) :
  format_decoded_customers B [arya; tyrion]
  = Returns
      ("1: Tyrion Lannister" ++ String "010"%char "2: Arya Stark")%string.
Proof. reflexivity. Qed.

Example test_get_customers_in_range :
  distance sample_builtins (location mr_torgue) DUBLIN_OFFICE
  = Returns 0x1.ff18d011aa4e8p+12%float /\
  get_customers_in_range sample_builtins [handsome_jack; mr_torgue]
  = Returns [handsome_jack].
Proof. split; reflexivity. Qed.

(** ** The theorems at the sample data *)

Example test_validate_customer_missing_keys (B : builtins) :
  validate_customer B (PDict [("name"%string, PUnicode "Hodor")]) []
  = (Returns false,
     [MissingKeys (PDict [("name"%string, PUnicode "Hodor")])
        ["user_id"; "latitude"; "longitude"]%string]).
Proof. reflexivity. Qed.

Example test_validate_customer_not_a_record (B : builtins) :
  validate_customer B (PArray [PArray [PInt 1]]) []
  = (Raises TypeError, []).
Proof. reflexivity. Qed.

Lemma sample_libm_at_eight_north : libm_at_eight_north sample_builtins.
Proof. repeat split. Defined.

Lemma sample_libm_at_dublin : libm_at_dublin sample_builtins.
Proof. repeat split. Defined.

Lemma sample_acos_domain_error : acos_domain_error sample_builtins.
Proof. intros x Hx. cbn. now rewrite Hx. Defined.

Lemma distance_same_point_raises_witness :
  distance sample_builtins eight_north eight_north = Raises ValueError.
Proof.
  apply distance_same_point_raises.
  - exact sample_libm_at_eight_north.
  - exact sample_acos_domain_error.
Defined.

Lemma acos_argument_above_one_witness :
  acos_argument sample_builtins eight_north eight_north
  = Returns 0x1.0000000000001p+0%float /\
  (1 <? 0x1.0000000000001p+0)%float = true.
Proof.
  apply acos_argument_above_one. exact sample_libm_at_eight_north.
Defined.

Lemma parse_customer_data_null_latitude_raises_witness :
  parse_customer_data sample_builtins [null_latitude_line] []
  = (Raises TypeError, []).
Proof.
  apply parse_customer_data_null_latitude_raises. reflexivity.
Defined.

Lemma sample_libm_near_office : libm_near_office sample_builtins.
Proof. repeat split. Defined.

Lemma get_customers_in_range_near_office_raises_witness :
  acos_argument sample_builtins (location next_door) DUBLIN_OFFICE
  = Returns 0x1.0000000000001p+0%float /\
  distance sample_builtins (location next_door) DUBLIN_OFFICE
  = Raises ValueError /\
  get_customers_in_range sample_builtins [next_door] = Raises ValueError /\
  distance sample_builtins (location handsome_jack) DUBLIN_OFFICE
  = Returns 0%float /\
  get_customers_in_range sample_builtins [handsome_jack; next_door]
  = Raises ValueError.
Proof.
  apply (@get_customers_in_range_near_office_raises sample_builtins []).
  - exact sample_libm_near_office.
  - exact sample_libm_at_dublin.
  - exact sample_acos_domain_error.
Defined.

Lemma format_customers_non_ascii_name_raises_witness :
  format_decoded_customers sample_builtins [handsome_jack; sean]
  = Raises UnicodeEncodeError.
Proof.
  apply (@format_customers_non_ascii_name_raises sample_builtins
           [handsome_jack; sean] sean).
  - right. now left.
  - reflexivity.
Defined.

Lemma get_customers_in_range_retains_witness :
  get_customers_in_range sample_builtins [handsome_jack; mr_torgue]
  = Returns [handsome_jack] /\
  In handsome_jack [handsome_jack].
Proof.
  destruct (get_customers_in_range_retains string Z sample_builtins)
    as (_ & Hfilter & _ & _ & Hdublin).
  assert (H : get_customers_in_range sample_builtins
                [handsome_jack; mr_torgue]
              = Returns [handsome_jack]).
  { rewrite Hfilter; [reflexivity|].
    constructor; [|constructor; [|constructor]].
    - exists 0%float. reflexivity.
    - exists 0x1.ff18d011aa4e8p+12%float. reflexivity. }
  split; [exact H|].
  apply (Hdublin sample_libm_at_dublin [handsome_jack; mr_torgue]
           [handsome_jack]).
  - exact H.
  - now left.
  - reflexivity.
Defined.

Lemma format_customers_lines_witness :
  (exists sorted_customers,
      Permutation sorted_customers [arya; tyrion] /\
      ascending sorted_customers /\
      format_named_customers sample_builtins [arya; tyrion]
      = Returns
          (String.concat (String "010"%char EmptyString)
             (map (fun c =>
                     (DecimalString.NilZero.string_of_int
                        (Z.to_int (user_id c))
                      ++ ": " ++ name c)%string)
                sorted_customers))) /\
  format_named_customers sample_builtins [arya; tyrion]
  = format_named_customers sample_builtins [tyrion; arya] /\
  format_named_customers sample_builtins []
  = Returns "No customers within 100.0 km."%string.
Proof.
  destruct (format_customers_lines sample_builtins)
    as (Hlines & Horder & Hempty).
  split; [|split].
  - apply Hlines. discriminate.
  - apply Horder.
    + apply perm_swap.
    + repeat constructor; simpl; intuition discriminate.
  - apply Hempty. reflexivity.
Defined.

End CloseCustomersFacts.

(* ===================================================================== *)
(** * More on validation, parsing, the filter and the program             *)
(* ===================================================================== *)

Module ProgramFacts.
Import PyRuntime CloseCustomers Program CloseCustomersFacts.
Local Open Scope string_scope.

(** ** validate_customer on every kind of value *)

(** What [validate_customer] does on a value that is not a dict. *)
Lemma validate_customer_not_dict (B : builtins) (customer : pyjson)
    (log : list warning) :
  (forall members, customer <> PDict members) ->
  validate_customer B customer log =
  match all_keys_in EXPECTED_KEYS customer with
  | Raises e => (Raises e, log)
  | Returns true => (Raises TypeError, log)
  | Returns false =>
      match keys_missing_from customer with
      | Returns missing_keys =>
          match py_str customer with
          | Returns _ =>
              (Returns false,
               (log ++ [MissingKeys customer missing_keys])%list)
          | Raises e => (Raises e, log)
          end
      | Raises e => (Raises e, log)
      end
  end.
Proof.
  intros Hnd. unfold validate_customer, bind, lift.
  destruct (all_keys_in EXPECTED_KEYS customer) as [[|]|e]; cbn [negb].
  - unfold parses_as_float, try_except, bind, lift.
    destruct customer; try reflexivity. now elim (Hnd members).
  - destruct (keys_missing_from customer); [|reflexivity].
    destruct (py_str customer); reflexivity.
  - reflexivity.
Qed.

(** The outcome does not depend on the log, and the log is only appended
    to. *)
Lemma validate_customer_frame (B : builtins) (customer : pyjson)
    (log : list warning) :
  validate_customer B customer log
  = (fst (validate_customer B customer []),
     (log ++ snd (validate_customer B customer []))%list).
Proof.
  assert (Hdict : (exists members, customer = PDict members) \/
                  (forall members, customer <> PDict members)).
  { destruct customer; try (right; discriminate). left. eauto. }
  destruct Hdict as [[members ->]|Hnd].
  - rewrite !validate_customer_dict.
    destruct (lookup "name" members), (lookup "user_id" members),
      (lookup "latitude" members) as [lat|],
      (lookup "longitude" members) as [lon|];
      try reflexivity.
    destruct (py_float B lat) as [x|[]];
      try (cbn; now rewrite ?app_nil_r).
    destruct (py_float B lon) as [y|[]];
      cbn; now rewrite ?app_nil_r.
  - rewrite !(validate_customer_not_dict B _ Hnd).
    destruct (all_keys_in EXPECTED_KEYS customer) as [[|]|e];
      try (cbn; now rewrite ?app_nil_r).
    destruct (keys_missing_from customer);
      [|cbn; now rewrite ?app_nil_r].
    destruct (py_str customer); cbn; now rewrite ?app_nil_r.
Qed.

(** From an empty log: True and exceptions leave it empty, False leaves one
    warning. *)
Lemma validate_customer_fresh (B : builtins) (customer : pyjson) :
  match validate_customer B customer [] with
  | (Returns false, added) => exists w, added = [w]
  | (_, added) => added = []
  end.
Proof.
  assert (Hdict : (exists members, customer = PDict members) \/
                  (forall members, customer <> PDict members)).
  { destruct customer; try (right; discriminate). left. eauto. }
  destruct Hdict as [[members ->]|Hnd].
  - rewrite validate_customer_dict.
    destruct (lookup "name" members), (lookup "user_id" members),
      (lookup "latitude" members) as [lat|],
      (lookup "longitude" members) as [lon|];
      try (cbn; eauto).
    destruct (py_float B lat) as [x|[]]; try (cbn; eauto).
    destruct (py_float B lon) as [y|[]]; cbn; eauto.
  - rewrite (validate_customer_not_dict B _ Hnd).
    destruct (all_keys_in EXPECTED_KEYS customer) as [[|]|e];
      try (cbn; eauto).
    destruct (keys_missing_from customer); [|cbn; eauto].
    destruct (py_str customer); cbn; eauto.
Qed.

(** X6. [validate_customer] logs exactly one warning when it returns False
    and none when it returns True or raises; what was logged before is
    kept as it was. *)
Theorem validate_customer_logs_once (B : builtins) (customer : pyjson)
    (log : list warning) :
  match validate_customer B customer log with
  | (Returns false, log') => exists w, log' = (log ++ [w])%list
  | (_, log') => log' = log
  end.
Proof.
  rewrite validate_customer_frame.
  pose proof (validate_customer_fresh B customer) as H.
  destruct (validate_customer B customer []) as [[[|]|e] added]; cbn.
  - subst. apply app_nil_r.
  - destruct H as [w ->]. eauto.
  - subst. apply app_nil_r.
Qed.

Lemma validate_customer_true (B : builtins) (customer : pyjson)
    (log log' : list warning) :
  validate_customer B customer log = (Returns true, log') ->
  complete_record B customer /\ log' = log.
Proof.
  assert (Hdict : (exists members, customer = PDict members) \/
                  (forall members, customer <> PDict members)).
  { destruct customer; try (right; discriminate). left. eauto. }
  destruct Hdict as [[members ->]|Hnd].
  - rewrite validate_customer_dict. unfold complete_record.
    destruct (lookup "name" members) as [nm|] eqn:En; [|discriminate].
    destruct (lookup "user_id" members) as [uid|] eqn:Eu; [|discriminate].
    destruct (lookup "latitude" members) as [lat|] eqn:Elat; [|discriminate].
    destruct (lookup "longitude" members) as [lon|] eqn:Elon;
      [|discriminate].
    destruct (py_float B lat) as [x|[]] eqn:Ex; try discriminate.
    destruct (py_float B lon) as [y|[]] eqn:Ey; try discriminate.
    intros [= <-]. split; [|reflexivity].
    exists members, nm, uid, lat, lon, x, y. repeat split; assumption.
  - rewrite (validate_customer_not_dict B _ Hnd).
    destruct (all_keys_in EXPECTED_KEYS customer) as [[|]|e];
      try discriminate.
    destruct (keys_missing_from customer); [|discriminate].
    destruct (py_str customer); discriminate.
Qed.

(** X7. [validate_customer] returns True exactly for a dict that has the
    four keys and whose latitude and longitude [float] converts; the log
    is then left as it was. *)
Theorem validate_customer_true_iff (B : builtins) (customer : pyjson)
    (log log' : list warning) :
  validate_customer B customer log = (Returns true, log') <->
  complete_record B customer /\ log' = log.
Proof.
  split; [apply validate_customer_true|].
  intros [(members & nm & uid & lat & lon & x & y & -> & En & Eu & Elat
           & Elon & Ex & Ey) ->].
  rewrite validate_customer_dict, En, Eu, Elat, Elon, Ex, Ey. reflexivity.
Qed.

Lemma key_among_members (key : string) (members : list (string * pyjson)) :
  existsb (str_equals key) (map (fun kv => PUnicode (fst kv)) members)
  = match lookup key members with Some _ => true | None => false end.
Proof.
  induction members as [|[k v] members IH]; [reflexivity|].
  cbn [map existsb fst str_equals lookup].
  destruct (String.eqb key k); [reflexivity|exact IH].
Qed.

Lemma missing_keys_of_spec (members : list (string * pyjson)) (key : string) :
  In key (missing_keys_of members) <->
  In key EXPECTED_KEYS /\ lookup key members = None.
Proof.
  unfold missing_keys_of. rewrite filter_In, key_among_members.
  destruct (lookup key members); cbn; intuition discriminate.
Qed.

(** X8. On a dict that lacks one of the four keys, [validate_customer]
    returns False and logs one warning, which names the dict and exactly
    the expected keys it lacks. *)
Theorem validate_customer_missing_keys (B : builtins)
    (members : list (string * pyjson)) (log : list warning)
    (key : string) :
  In key EXPECTED_KEYS ->
  lookup key members = None ->
  exists missing_keys,
    validate_customer B (PDict members) log
    = (Returns false,
       (log ++ [MissingKeys (PDict members) missing_keys])%list) /\
    forall k,
      In k missing_keys <->
      In k EXPECTED_KEYS /\ lookup k members = None.
Proof.
  intros Hin Hnone. exists (missing_keys_of members).
  split; [|apply missing_keys_of_spec].
  rewrite validate_customer_dict.
  cbn in Hin.
  destruct Hin as [<-|[<-|[<-|[<-|[]]]]]; rewrite Hnone;
    repeat match goal with
           | |- context [match lookup ?k members with _ => _ end] =>
               destruct (lookup k members)
           end; reflexivity.
Qed.

(** X9. On a dict that has the four keys the latitude is examined first:
    when it does not parse, False is returned with a warning about the
    latitude, whatever the longitude is; a longitude that does not parse
    is reported when the latitude is converted. *)
Theorem validate_customer_latitude_first (B : builtins)
    (members : list (string * pyjson)) (log : list warning)
    (customer_name customer_id lat lon : pyjson) :
  lookup "name" members = Some customer_name ->
  lookup "user_id" members = Some customer_id ->
  lookup "latitude" members = Some lat ->
  lookup "longitude" members = Some lon ->
  (py_float B lat = Raises ValueError ->
   validate_customer B (PDict members) log
   = (Returns false, (log ++ [BadLatitude lat])%list)) /\
  (forall x,
      py_float B lat = Returns x ->
      py_float B lon = Raises ValueError ->
      validate_customer B (PDict members) log
      = (Returns false, (log ++ [BadLongitude lon])%list)).
Proof.
  intros En Eu Elat Elon.
  split; [intros Ex|intros x Ex Ey];
    rewrite validate_customer_dict, En, Eu, Elat, Elon, Ex;
    [|rewrite Ey]; reflexivity.
Qed.

Lemma validate_customer_then_build_aux (B : builtins) (customer : pyjson)
    (log' : list warning) :
  validate_customer B customer [] = (Returns true, log') ->
  exists c, build_customer B customer = Returns c.
Proof.
  intros H. apply validate_customer_true in H.
  destruct H as [(members & nm & uid & lat & lon & x & y & -> & En & Eu
                  & Elat & Elon & Ex & Ey) _].
  exists (MkCustomer nm uid (MkCoordinate x y)).
  unfold build_customer. cbn [getitem].
  rewrite En, Eu, Elat, Elon. cbn [obind]. rewrite Ex, Ey. reflexivity.
Qed.

(** X10. After [validate_customer] has returned True, building the
    Customer (lines 74-78) raises nothing: the name and the user id are
    the values of the record, the location the converted latitude and
    longitude. *)
Theorem validate_customer_then_build (B : builtins) (customer : pyjson)
    (log log' : list warning) :
  validate_customer B customer log = (Returns true, log') ->
  exists c lat lon,
    build_customer B customer = Returns c /\
    getitem customer "name" = Returns (name c) /\
    getitem customer "user_id" = Returns (user_id c) /\
    getitem customer "latitude" = Returns lat /\
    py_float B lat = Returns (latitude (location c)) /\
    getitem customer "longitude" = Returns lon /\
    py_float B lon = Returns (longitude (location c)).
Proof.
  intros H. apply validate_customer_true in H.
  destruct H as [(members & nm & uid & lat & lon & x & y & -> & En & Eu
                  & Elat & Elon & Ex & Ey) _].
  exists (MkCustomer nm uid (MkCoordinate x y)), lat, lon.
  unfold build_customer. cbn [getitem].
  rewrite En, Eu, Elat, Elon. cbn [obind]. rewrite Ex, Ey.
  cbn. repeat split; assumption.
Qed.

(** ** parse_customer_data *)

(** One turn of the loop of lines 64-79. *)
Lemma parse_each_cons (B : builtins) (customer_json : string)
    (rest : list string) (customers : list (Customer pyjson pyjson))
    (log : list warning) :
  parse_each B (customer_json :: rest) customers log =
  match json_loads B customer_json with
  | Raises e =>
      if is_instance e ValueError
      then parse_each B rest customers (log ++ [ParseError customer_json])%list
      else (Raises e, log)
  | Returns customer_data =>
      match validate_customer B customer_data [] with
      | (Raises e, added) => (Raises e, (log ++ added)%list)
      | (Returns false, added) =>
          parse_each B rest customers (log ++ added)%list
      | (Returns true, added) =>
          match build_customer B customer_data with
          | Returns customer =>
              parse_each B rest (customers ++ [customer])%list
                (log ++ added)%list
          | Raises e => (Raises e, (log ++ added)%list)
          end
      end
  end.
Proof.
  cbn [parse_each].
  destruct (json_loads B customer_json) as [customer_data|e];
    [|destruct (is_instance e ValueError); reflexivity].
  unfold bind at 1. rewrite validate_customer_frame.
  destruct (validate_customer B customer_data []) as [[[|]|e] added];
    cbn [fst snd negb]; reflexivity.
Qed.

Lemma customer_of_line_cons (B : builtins) (customer_json : string)
    (rest : list string) :
  customers_of_lines B (customer_json :: rest)
  = (match customer_of_line B customer_json with
     | Some customer => [customer]
     | None => []
     end ++ customers_of_lines B rest)%list.
Proof. reflexivity. Qed.

Lemma parse_each_returns (B : builtins) (all_customers_json : list string) :
  forall customers log result log',
    parse_each B all_customers_json customers log = (Returns result, log') ->
    exists added,
      log' = (log ++ added)%list /\
      result = (customers ++ customers_of_lines B all_customers_json)%list /\
      length (customers_of_lines B all_customers_json) + length added
      = length all_customers_json.
Proof.
  induction all_customers_json as [|customer_json rest IH];
    intros customers log result log'.
  - cbn. intros [= <- <-]. exists []. now rewrite !app_nil_r.
  - rewrite parse_each_cons, customer_of_line_cons.
    unfold customer_of_line.
    destruct (json_loads B customer_json) as [customer_data|e].
    + pose proof (validate_customer_fresh B customer_data) as Hfresh.
      destruct (validate_customer B customer_data []) as [[[|]|e] added];
        cbn [fst]; [| |discriminate].
      * subst added.
        destruct (build_customer B customer_data) as [customer|e];
          [|discriminate].
        intros H. apply IH in H. destruct H as (added & -> & -> & Hlen).
        exists added. rewrite app_nil_r, <- app_assoc.
        repeat split. cbn [app length]. lia.
      * destruct Hfresh as [w ->].
        intros H. apply IH in H. destruct H as (added & -> & -> & Hlen).
        exists (w :: added). rewrite <- app_assoc.
        repeat split. cbn [app length]. lia.
    + destruct (is_instance e ValueError); [|discriminate].
      intros H. apply IH in H. destruct H as (added & -> & -> & Hlen).
      exists (ParseError customer_json :: added). rewrite <- app_assoc.
      repeat split. cbn [app length]. lia.
Qed.

(** X11. When [parse_customer_data] returns, its list holds, in the order
    of the lines, the customer of each line that decodes to a record
    passing [validate_customer], and nothing else. *)
Theorem parse_customer_data_result (B : builtins)
    (all_customers_json : list string) (log log' : list warning)
    (customers : list (Customer pyjson pyjson)) :
  parse_customer_data B all_customers_json log = (Returns customers, log') ->
  customers = customers_of_lines B all_customers_json /\
  forall customer,
    In customer customers <->
    exists customer_json,
      In customer_json all_customers_json /\
      customer_of_line B customer_json = Some customer.
Proof.
  intros H. apply parse_each_returns in H.
  destruct H as (added & _ & -> & _). cbn [app].
  split; [reflexivity|]. intros customer.
  unfold customers_of_lines. rewrite in_flat_map. split.
  - intros (customer_json & Hin & Hc). exists customer_json.
    split; [assumption|].
    destruct (customer_of_line B customer_json); cbn in Hc;
      [destruct Hc as [->|[]]; reflexivity|contradiction].
  - intros (customer_json & Hin & Hc). exists customer_json.
    split; [assumption|]. rewrite Hc. now left.
Qed.

(** X12. When [parse_customer_data] returns, every line is accounted for:
    it gave a customer or exactly one warning, and the warnings were added
    after what the log held. *)
Theorem parse_customer_data_accounts (B : builtins)
    (all_customers_json : list string) (log log' : list warning)
    (customers : list (Customer pyjson pyjson)) :
  parse_customer_data B all_customers_json log = (Returns customers, log') ->
  exists added,
    log' = (log ++ added)%list /\
    length customers + length added = length all_customers_json.
Proof.
  intros H. apply parse_each_returns in H.
  destruct H as (added & -> & -> & Hlen). now exists added.
Qed.

Lemma parse_each_app (B : builtins) (lines1 lines2 : list string) :
  forall customers log,
    parse_each B (lines1 ++ lines2) customers log =
    match parse_each B lines1 customers log with
    | (Returns customers1, log1) => parse_each B lines2 customers1 log1
    | (Raises e, log1) => (Raises e, log1)
    end.
Proof.
  induction lines1 as [|customer_json rest IH]; intros customers log.
  - reflexivity.
  - change ((customer_json :: rest) ++ lines2)%list
      with (customer_json :: (rest ++ lines2))%list.
    rewrite !parse_each_cons.
    destruct (json_loads B customer_json) as [customer_data|e];
      [|destruct (is_instance e ValueError); [apply IH|reflexivity]].
    destruct (validate_customer B customer_data []) as [[[|]|e] added];
      [|apply IH|reflexivity].
    destruct (build_customer B customer_data); [apply IH|reflexivity].
Qed.

Lemma parse_each_accumulates (B : builtins) (lines : list string) :
  forall customers log,
    parse_each B lines customers log =
    match parse_each B lines [] log with
    | (Returns result, log') => (Returns (customers ++ result)%list, log')
    | (Raises e, log') => (Raises e, log')
    end.
Proof.
  induction lines as [|customer_json rest IH]; intros customers log.
  - cbn. now rewrite app_nil_r.
  - rewrite !parse_each_cons.
    destruct (json_loads B customer_json) as [customer_data|e];
      [|destruct (is_instance e ValueError); [apply IH|reflexivity]].
    destruct (validate_customer B customer_data []) as [[[|]|e] added];
      [|apply IH|reflexivity].
    destruct (build_customer B customer_data) as [customer|e];
      [|reflexivity].
    rewrite (IH (customers ++ [customer])%list), (IH ([] ++ [customer])%list).
    destruct (parse_each B rest [] (log ++ added)%list) as [[result|e] l];
      [|reflexivity].
    now rewrite <- app_assoc.
Qed.

(** X13. Parsing two batches of lines one after the other, the second on
    the log the first left, gives what parsing all the lines at once
    gives; and once a line makes [parse_customer_data] raise, the lines
    after it are neither read nor logged. *)
Theorem parse_customer_data_append (B : builtins)
    (lines1 lines2 : list string) (log : list warning) :
  parse_customer_data B (lines1 ++ lines2) log =
  match parse_customer_data B lines1 log with
  | (Returns customers1, log1) =>
      match parse_customer_data B lines2 log1 with
      | (Returns customers2, log2) =>
          (Returns (customers1 ++ customers2)%list, log2)
      | (Raises e, log2) => (Raises e, log2)
      end
  | (Raises e, log1) => (Raises e, log1)
  end.
Proof.
  unfold parse_customer_data. rewrite parse_each_app.
  destruct (parse_each B lines1 [] log) as [[customers1|e] log1];
    [|reflexivity].
  apply parse_each_accumulates.
Qed.

(** X14. No exception escapes [parse_customer_data] when every line either
    fails to decode or decodes to an object whose latitude and longitude,
    if present, are of a type that [float] converts or rejects with
    ValueError. *)
Theorem parse_customer_data_harmless (B : builtins)
    (all_customers_json : list string) (log : list warning) :
  Forall (harmless_line B) all_customers_json ->
  exists customers log',
    parse_customer_data B all_customers_json log = (Returns customers, log').
Proof.
  intros H.
  destruct (@parse_each_plain B all_customers_json H [] log)
    as (customers & log' & Hparse & _).
  exists customers, log'. exact Hparse.
Qed.

(** ** The exceptions that escape *)

Lemma py_in_raises (key : string) (container : pyjson) (e : exception) :
  py_in key container = Raises e -> e = TypeError.
Proof. destruct container; cbn; congruence. Qed.

Lemma all_keys_in_raises (keys : list string) (customer : pyjson)
    (e : exception) :
  all_keys_in keys customer = Raises e -> e = TypeError.
Proof.
  induction keys as [|key keys IH]; cbn; [discriminate|].
  destruct (py_in key customer) as [[|]|e'] eqn:E; cbn.
  - exact IH.
  - discriminate.
  - intros [= <-]. now apply py_in_raises in E.
Qed.

Lemma keys_missing_from_raises (customer : pyjson) (e : exception) :
  keys_missing_from customer = Raises e -> e = TypeError.
Proof.
  unfold keys_missing_from.
  destruct customer; cbn; try congruence.
  destruct (forallb hashable items); cbn; congruence.
Qed.

Lemma py_str_raises (v : pyjson) (e : exception) :
  py_str v = Raises e ->
  e = UnicodeEncodeError /\
  exists u, v = PUnicode u /\ is_ascii u = false.
Proof.
  destruct v; cbn; try discriminate.
  unfold encode_ascii. destruct (is_ascii s) eqn:E; cbn; [discriminate|].
  intros [= <-]. eauto.
Qed.

Lemma validate_customer_raises (B : builtins) (customer : pyjson)
    (log log' : list warning) (e : exception) :
  validate_customer B customer log = (Raises e, log') ->
  log' = log /\
  (e = TypeError \/ e = OverflowError \/
   (e = UnicodeEncodeError /\
    exists u, customer = PUnicode u /\ is_ascii u = false)).
Proof.
  assert (Hdict : (exists members, customer = PDict members) \/
                  (forall members, customer <> PDict members)).
  { destruct customer; try (right; discriminate). left. eauto. }
  destruct Hdict as [[members ->]|Hnd].
  - rewrite validate_customer_dict.
    destruct (lookup "name" members), (lookup "user_id" members),
      (lookup "latitude" members) as [lat|],
      (lookup "longitude" members) as [lon|];
      try discriminate.
    destruct (py_float B lat) as [x|e1] eqn:Ex.
    + destruct (py_float B lon) as [y|e2] eqn:Ey; [discriminate|].
      apply py_float_raises in Ey.
      destruct Ey as [ -> | [ -> | -> ] ]; intros [= <- <-]; auto.
    + apply py_float_raises in Ex.
      destruct Ex as [ -> | [ -> | -> ] ]; intros [= <- <-]; auto.
  - rewrite (validate_customer_not_dict B _ Hnd).
    destruct (all_keys_in EXPECTED_KEYS customer) as [[|]|e1] eqn:E1.
    + intros [= <- <-]. auto.
    + destruct (keys_missing_from customer) as [ks|e2] eqn:E2.
      * destruct (py_str customer) as [text|e3] eqn:E3; [discriminate|].
        intros [= <- <-]. apply py_str_raises in E3. auto.
      * intros [= <- <-]. apply keys_missing_from_raises in E2. auto.
    + intros [= <- <-]. apply all_keys_in_raises in E1. auto.
Qed.

(** An exception of [parse_customer_data] is that of [json.loads] on one of
    the lines, when [except ValueError] does not catch it, or that of
    [validate_customer] on what a line decodes to. *)
Lemma parse_each_raises_only (B : builtins)
    (all_customers_json : list string) :
  forall customers log log' e,
    parse_each B all_customers_json customers log = (Raises e, log') ->
    exists customer_json,
      In customer_json all_customers_json /\
      ((json_loads B customer_json = Raises e /\
        is_instance e ValueError = false) \/
       (exists customer_data added,
           json_loads B customer_json = Returns customer_data /\
           validate_customer B customer_data [] = (Raises e, added))).
Proof.
  induction all_customers_json as [|customer_json rest IH];
    intros customers log log' e; [discriminate|].
  assert (Hrest : forall customers1 log1,
             parse_each B rest customers1 log1 = (Raises e, log') ->
             exists customer_json0,
               In customer_json0 (customer_json :: rest) /\
               ((json_loads B customer_json0 = Raises e /\
                 is_instance e ValueError = false) \/
                (exists customer_data added,
                    json_loads B customer_json0 = Returns customer_data /\
                    validate_customer B customer_data []
                    = (Raises e, added)))).
  { intros customers1 log1 H. apply IH in H.
    destruct H as (line & Hin & H). exists line. split; [now right|exact H]. }
  rewrite parse_each_cons.
  destruct (json_loads B customer_json) as [customer_data|e0] eqn:Ej.
  - destruct (validate_customer B customer_data []) as [[[|]|e1] added]
      eqn:Ev.
    + destruct (validate_customer_then_build_aux B customer_data Ev)
        as [c ->].
      apply Hrest.
    + apply Hrest.
    + intros [= <- _]. exists customer_json. split; [now left|].
      right. exists customer_data, added. now split.
  - destruct (is_instance e0 ValueError) eqn:Ei; [apply Hrest|].
    intros [= <- _]. exists customer_json. split; [now left|].
    left. now split.
Qed.

(** X21. The exceptions that escape [validate_customer] and
    [parse_customer_data]. [validate_customer] raises nothing but the
    TypeError and the OverflowError of [float] and of a value that is not
    a dict, and the UnicodeEncodeError of [str(customer)] when the value
    is a [unicode] string that is not ASCII; the log is then as it was.
    [parse_customer_data] raises these, the last one for a line that
    decodes to such a string, and whatever [json.loads] raises on a line
    that [except ValueError] does not catch. No key is subscripted that
    the record lacks, and the ValueError of [float] is caught. *)
Theorem escaping_exceptions (B : builtins) :
  (forall customer log log' e,
      validate_customer B customer log = (Raises e, log') ->
      log' = log /\
      (e = TypeError \/ e = OverflowError \/
       (e = UnicodeEncodeError /\
        exists u, customer = PUnicode u /\ is_ascii u = false))) /\
  (forall all_customers_json log log' e,
      parse_customer_data B all_customers_json log = (Raises e, log') ->
      e = TypeError \/ e = OverflowError \/
      (e = UnicodeEncodeError /\
       exists customer_json u,
         In customer_json all_customers_json /\
         json_loads B customer_json = Returns (PUnicode u) /\
         is_ascii u = false) \/
      (exists customer_json,
          In customer_json all_customers_json /\
          json_loads B customer_json = Raises e /\
          is_instance e ValueError = false)).
Proof.
  split.
  - intros customer log log' e. apply validate_customer_raises.
  - intros lines log log' e H. apply parse_each_raises_only in H.
    destruct H as (line & Hin & [[Hj Hi]|(data & added & Hj & Hv)]).
    + right. right. right. exists line. auto.
    + apply validate_customer_raises in Hv.
      destruct Hv as [_ [ -> | [ -> | [ -> (u & -> & Hu) ] ] ]]; auto.
      right. right. left. split; [reflexivity|]. exists line, u. auto.
Qed.

(** The membership test of line 94 over any list of keys. *)
Lemma all_keys_in_cases (keys : list string) (customer : pyjson) :
  all_keys_in keys customer =
  match keys with
  | [] => Returns true
  | key :: _ =>
      match py_in key customer with
      | Raises e => Raises e
      | Returns _ =>
          Returns
            (forallb
               (fun k =>
                  match py_in k customer with
                  | Returns present => present
                  | Raises _ => false
                  end) keys)
      end
  end.
Proof.
  induction keys as [|key keys IH]; [reflexivity|].
  cbn [all_keys_in forallb].
  destruct (py_in key customer) as [[|]|e] eqn:E; cbn [obind andb];
    try reflexivity.
  rewrite IH. destruct keys as [|key' keys]; [reflexivity|].
  destruct (py_in key' customer) as [present|e'] eqn:E'; [reflexivity|].
  destruct customer; cbn in E, E'; discriminate.
Qed.

(** X22. The test of line 94 does not depend on the order in which the
    set EXPECTED_KEYS is iterated: over any two orders of the same keys
    it returns the same boolean or raises the same exception. *)
Theorem all_keys_in_any_order (keys keys' : list string)
    (customer : pyjson) :
  Permutation keys keys' ->
  all_keys_in keys customer = all_keys_in keys' customer.
Proof.
  intros Hp. rewrite !all_keys_in_cases.
  assert (Hall : forall f : string -> bool,
             forallb f keys = forallb f keys').
  { intros f. apply eq_true_iff_eq. rewrite !forallb_forall.
    split; intros H k Hk; apply H;
      [apply Permutation_sym in Hp|]; eapply Permutation_in; eassumption. }
  destruct keys as [|key keys], keys' as [|key' keys'].
  - reflexivity.
  - now apply Permutation_nil in Hp.
  - apply Permutation_sym in Hp. now apply Permutation_nil in Hp.
  - rewrite Hall.
    destruct customer; cbn [py_in]; reflexivity.
Qed.

(** ** get_customers_in_range *)

Section FilterFacts.
Variables N U : Type.
Variable B : builtins.

#[local] Abbreviation customer := (Customer N U).

Lemma keep_in_range_app (l1 l2 : list customer) :
  forall acc,
    keep_in_range B (l1 ++ l2) acc
    = obind (keep_in_range B l1 acc) (fun acc' => keep_in_range B l2 acc').
Proof.
  induction l1 as [|c l1 IH]; intros acc; [reflexivity|].
  cbn [app keep_in_range].
  destruct (distance B (location c) DUBLIN_OFFICE) as [d|e];
    cbn [obind]; [|reflexivity].
  destruct (d <=? RANGE_IN_KM)%float; apply IH.
Qed.

Lemma keep_in_range_accumulates (l : list customer) :
  forall acc,
    keep_in_range B l acc
    = obind (keep_in_range B l []) (fun out => Returns (acc ++ out)%list).
Proof.
  induction l as [|c l IH]; intros acc.
  - cbn. now rewrite app_nil_r.
  - cbn [keep_in_range].
    destruct (distance B (location c) DUBLIN_OFFICE) as [d|e];
      cbn [obind]; [|reflexivity].
    destruct (d <=? RANGE_IN_KM)%float; [|apply IH].
    rewrite (IH (acc ++ [c])%list), (IH ([] ++ [c])%list).
    destruct (keep_in_range B l []) as [out|e]; cbn [obind];
      [|reflexivity].
    now rewrite <- app_assoc.
Qed.

(** X15. Filtering a list made of two parts is filtering each part and
    putting the results one after the other; an exception in the first
    part is raised before the second is looked at. *)
Theorem get_customers_in_range_append (l1 l2 : list customer) :
  get_customers_in_range B (l1 ++ l2)
  = obind (get_customers_in_range B l1)
      (fun out1 =>
         obind (get_customers_in_range B l2)
           (fun out2 => Returns (out1 ++ out2)%list)).
Proof.
  unfold get_customers_in_range. rewrite keep_in_range_app.
  destruct (keep_in_range B l1 []) as [out1|e]; cbn [obind];
    [|reflexivity].
  apply keep_in_range_accumulates.
Qed.

Lemma filter_twice (X : Type) (f : X -> bool) (l : list X) :
  filter f (filter f l) = filter f l.
Proof.
  induction l as [|x l IH]; [reflexivity|]. cbn.
  destruct (f x) eqn:E; cbn; rewrite ?E, IH; reflexivity.
Qed.

Lemma get_customers_in_range_filter (customers out : list customer) :
  get_customers_in_range B customers = Returns out ->
  out = filter (in_range B) customers /\
  Forall (has_distance B) customers.
Proof.
  intros H. unfold get_customers_in_range in H.
  pose proof (keep_in_range_returns _ _ _ H) as Hall.
  rewrite (keep_in_range_filter [] Hall) in H.
  injection H as <-. now split.
Qed.

(** X16. Filtering the list that [get_customers_in_range] returned returns
    it unchanged. *)
Theorem get_customers_in_range_idempotent (customers out : list customer) :
  get_customers_in_range B customers = Returns out ->
  get_customers_in_range B out = Returns out.
Proof.
  intros H. apply get_customers_in_range_filter in H.
  destruct H as [-> Hall].
  unfold get_customers_in_range. rewrite keep_in_range_filter.
  - cbn [app]. now rewrite filter_twice.
  - rewrite Forall_forall in *. intros c Hc.
    apply filter_In in Hc. now apply Hall.
Qed.

End FilterFacts.

(** A float compares equal to itself unless it is NaN. *)
Lemma SFeqb_refl (x : spec_float) : x <> S754_nan -> SFeqb x x = true.
Proof.
  destruct x as [s|s| |s m e]; intros Hx; try reflexivity.
  - now destruct s.
  - now elim Hx.
  - unfold SFeqb, SFcompare.
    rewrite Z.compare_refl, Pos.compare_cont_refl. now destruct s.
Qed.

Lemma leb_nan (d x : float) : is_nan d = true -> (d <=? x)%float = false.
Proof.
  unfold is_nan. intros H. apply negb_true_iff in H.
  rewrite eqb_spec in H. rewrite leb_spec.
  destruct (Prim2SF d) as [s|s| |s m e] eqn:E; try reflexivity;
    rewrite SFeqb_refl in H; discriminate.
Qed.

(** X17. The threshold is inclusive, and a distance that is not a number
    is out of range: a customer whose distance is exactly 100.0 is in the
    list returned, one whose distance is NaN is not. *)
Theorem get_customers_in_range_threshold (N U : Type) (B : builtins)
    (customers out : list (Customer N U)) (c : Customer N U) (d : float) :
  get_customers_in_range B customers = Returns out ->
  In c customers ->
  distance B (location c) DUBLIN_OFFICE = Returns d ->
  (d = RANGE_IN_KM -> In c out) /\
  (is_nan d = true -> ~ In c out).
Proof.
  intros H Hin Hd. apply get_customers_in_range_filter in H.
  destruct H as [-> _]. split.
  - intros ->. apply filter_In. split; [assumption|].
    unfold in_range. now rewrite Hd.
  - intros Hnan Hc. apply filter_In in Hc. destruct Hc as [_ Hc].
    unfold in_range in Hc. rewrite Hd in Hc.
    rewrite (@leb_nan d RANGE_IN_KM Hnan) in Hc. discriminate.
Qed.

(** ** distance *)

Lemma SFopp_binary_round_aux (s : bool) (m e : Z) (l : SpecFloat.location) :
  SFopp (binary_round_aux prec emax s m e l)
  = binary_round_aux prec emax (negb s) m e l.
Proof.
  unfold binary_round_aux.
  destruct (shr_fexp prec emax m e l) as [mrs' e'].
  destruct (shr_fexp prec emax _ e' loc_Exact) as [mrs'' e''].
  destruct (shr_m mrs''); try reflexivity.
  destruct (Z.leb _ _); reflexivity.
Qed.

Lemma SFmul_opp_l (x y : spec_float) :
  SFmul prec emax (SFopp x) y = SFopp (SFmul prec emax x y).
Proof.
  destruct x as [sx|sx| |sx mx ex], y as [sy|sy| |sy my ey]; cbn;
    rewrite ?SFopp_binary_round_aux, ?negb_xorb_l; reflexivity.
Qed.

Lemma float_mul_opp_l (x y : float) : (- x * y = - (x * y))%float.
Proof.
  apply Prim2SF_inj. rewrite opp_spec, !mul_spec, opp_spec.
  apply SFmul_opp_l.
Qed.

Lemma SFabs_sub_opp (x y : spec_float) :
  SFabs (SFsub prec emax (SFopp x) (SFopp y))
  = SFabs (SFsub prec emax x y).
Proof.
  destruct x as [sx|sx| |sx mx ex], y as [sy|sy| |sy my ey];
    cbn [SFsub SFopp SFabs];
    try reflexivity;
    try (destruct sx, sy; reflexivity).
  rewrite <- SFabs_binary_normalize_opp. f_equal. f_equal.
  generalize (Zpos (fst (shl_align mx ex (Z.min ex ey)))),
             (Zpos (fst (shl_align my ey (Z.min ex ey)))).
  intros p q. destruct sx, sy; unfold cond_Zopp; cbn [negb]; lia.
Qed.

Lemma float_abs_sub_opp (x y : float) :
  (abs (- x - - y) = abs (x - y))%float.
Proof.
  apply Prim2SF_inj. rewrite !abs_spec, !sub_spec, !opp_spec.
  apply SFabs_sub_opp.
Qed.

(** X23. [distance] is the same between two points and between their
    images across the Greenwich meridian (both longitudes negated):
    the longitudes count only through the absolute value of their
    difference. *)
Theorem distance_across_meridian (B : builtins) (a b : Coordinate) :
  distance B (across_meridian a) (across_meridian b) = distance B a b.
Proof.
  unfold distance, acos_argument, across_meridian, math_radians.
  cbn [latitude longitude].
  now rewrite !float_mul_opp_l, float_abs_sub_opp.
Qed.

(** ** format_customers on any names and user ids *)

Section ReportFacts.
Variables N U : Type.
Variable id_lt : U -> U -> bool.
Variable format_id : U -> outcome string.
Variable format_name : N -> outcome string.

Lemma insert_by_key_perm_any (T K : Type) (key : T -> K)
    (lt : K -> K -> bool) (x : T) (l : list T) :
  Permutation (insert_by_key key lt x l) (x :: l).
Proof.
  induction l as [|y l IH]; cbn; [reflexivity|].
  destruct (lt (key y) (key x)); [|reflexivity].
  rewrite IH. apply perm_swap.
Qed.

Lemma sorted_by_key_perm_any (T K : Type) (key : T -> K)
    (lt : K -> K -> bool) (l : list T) :
  Permutation (sorted_by_key key lt l) l.
Proof.
  induction l as [|x l IH]; cbn; [reflexivity|].
  rewrite insert_by_key_perm_any. now constructor.
Qed.

(** The line of a customer: the two fields as [format] writes them, with a
    colon and a space between them. *)
Lemma format_line_cases (c : Customer N U) :
  match format_line format_id format_name c with
  | Returns line =>
      exists id_text name_text,
        format_id (user_id c) = Returns id_text /\
        format_name (name c) = Returns name_text /\
        line = id_text ++ ": " ++ name_text
  | Raises e =>
      format_id (user_id c) = Raises e \/ format_name (name c) = Raises e
  end.
Proof.
  unfold format_line.
  destruct (format_id (user_id c)) as [id_text|e]; cbn [obind]; [|now left].
  destruct (format_name (name c)) as [name_text|e]; cbn [obind];
    [|now right].
  now exists id_text, name_text.
Qed.

(** The loop of lines 180-181: a line is added for each customer in turn,
    until [format] raises. *)
Lemma format_each_cases (l : list (Customer N U)) :
  forall result,
    match format_each format_id format_name l result with
    | Returns out =>
        exists lines,
          out = (result ++ lines)%list /\
          Forall2
            (fun c line => format_line format_id format_name c = Returns line)
            l lines
    | Raises e =>
        exists c, In c l /\ format_line format_id format_name c = Raises e
    end.
Proof.
  induction l as [|c l IH]; intros result; cbn [format_each].
  - exists []. now rewrite app_nil_r.
  - destruct (format_line format_id format_name c) as [line|e] eqn:Ec;
      cbn [obind].
    + specialize (IH (result ++ [line])%list).
      destruct (format_each format_id format_name l (result ++ [line])%list)
        as [out|e].
      * destruct IH as (lines & -> & Hall). exists (line :: lines).
        rewrite <- app_assoc. split; [reflexivity|]. now constructor.
      * destruct IH as (c' & Hin & Hc'). exists c'. split; [now right|].
        exact Hc'.
    + exists c. split; [now left|exact Ec].
Qed.

(** X24. Whatever the types of the names and of the user ids, whatever
    [<] answers on the ids and whatever [format] does on a field: when
    [format_customers] returns, the text is, for a list that is not empty,
    one line for each customer, none dropped and none repeated, each line
    the formatted user id, a colon, a space and the formatted name, with
    one newline character between two lines, and the message only for the
    empty list; when it raises, the exception is the one that [format]
    raised on the user id or the name of one of the customers. *)
Theorem format_customers_one_line_each (B : builtins)
    (customers : list (Customer N U)) :
  exists arranged,
    Permutation arranged customers /\
    match format_customers id_lt format_id format_name B customers with
    | Returns text =>
        exists lines,
          Forall2
            (fun c line =>
               exists id_text name_text,
                 format_id (user_id c) = Returns id_text /\
                 format_name (name c) = Returns name_text /\
                 line = id_text ++ ": " ++ name_text)
            arranged lines /\
          text =
          match customers with
          | [] => "No customers within " ++ format_float B RANGE_IN_KM ++ " km."
          | _ :: _ => String.concat (String "010"%char EmptyString) lines
          end
    | Raises e =>
        exists c,
          In c customers /\
          (format_id (user_id c) = Raises e \/
           format_name (name c) = Raises e)
    end.
Proof.
  pose proof (sorted_by_key_perm_any (@user_id N U) id_lt customers) as Hp.
  exists (sorted_by_key (@user_id N U) id_lt customers).
  split; [exact Hp|].
  unfold format_customers.
  pose proof (format_each_cases
                (sorted_by_key (@user_id N U) id_lt customers) []) as H.
  destruct (format_each format_id format_name
              (sorted_by_key (@user_id N U) id_lt customers) [])
    as [out|e]; cbn [obind].
  - destruct H as (lines & -> & Hall). cbn [app].
    assert (Hlines :
              Forall2
                (fun c line =>
                   exists id_text name_text,
                     format_id (user_id c) = Returns id_text /\
                     format_name (name c) = Returns name_text /\
                     line = id_text ++ ": " ++ name_text)
                (sorted_by_key (@user_id N U) id_lt customers) lines).
    { clear Hp. induction Hall as [|c line l lines' Hc _ IH];
        constructor; [|exact IH].
      pose proof (format_line_cases c) as Hcases.
      now rewrite Hc in Hcases. }
    destruct lines as [|line lines].
    + exists []. split; [exact Hlines|].
      inversion Hall as [Hnil|]; subst. rewrite <- Hnil in Hp.
      apply Permutation_nil in Hp. now subst customers.
    + exists (line :: lines). split; [exact Hlines|].
      destruct customers as [|c customers].
      * inversion Hall.
      * now rewrite join_concat, newline_char.
  - destruct H as (c & Hin & Hc). exists c.
    split; [eapply Permutation_in; eassumption|].
    pose proof (format_line_cases c) as Hcases. now rewrite Hc in Hcases.
Qed.

End ReportFacts.

(** ** main *)

Section MainFacts.
Variable files : string -> option (list string).
Variable B : builtins.
Variable py_lt : pyjson -> pyjson -> bool.
Variable py_format : pyjson -> outcome string.

(** X18. [main] ends in [sys.exit] exactly when customers.json cannot be
    opened: the status is 1, the failure is the one thing logged, and
    nothing is parsed or printed. Once the file is open [main] prints or
    dies of an exception of a stage. *)
Theorem main_exits_iff (status : Z) (log : list log_record) :
  main files B py_lt py_format = (Exited status, log) <->
  files INPUT_FILE = None /\ status = 1%Z /\
  log = [CouldNotOpen INPUT_FILE].
Proof.
  unfold main, get_file_contents.
  destruct (files INPUT_FILE) as [lines|].
  - split; [|now intros [? _]].
    destruct (parse_customer_data B lines []) as [[customers|e] warnings];
      [|discriminate].
    destruct (get_customers_in_range B customers) as [customers_in_range|e];
      [|discriminate].
    destruct (format_customers py_lt py_format py_format B
                customers_in_range); discriminate.
  - split.
    + now intros [= <- <-].
    + now intros (_ & -> & ->).
Qed.

Lemma parse_each_undecodable_lines (lines : list string) :
  Forall (fun customer_json => json_loads B customer_json = Raises ValueError)
    lines ->
  forall customers log,
    parse_each B lines customers log
    = (Returns customers, (log ++ map ParseError lines)%list).
Proof.
  induction 1 as [|customer_json rest Hline _ IH]; intros customers log.
  - cbn. now rewrite app_nil_r.
  - rewrite parse_each_cons, Hline. cbn [is_instance exception_eqb].
    rewrite IH, <- app_assoc. reflexivity.
Qed.

(** X19. When customers.json opens and none of its lines decodes, [main]
    prints the message that no customer is in range, after one warning
    per line in the order of the lines. *)
Theorem main_nothing_decodes (lines : list string) :
  files INPUT_FILE = Some lines ->
  Forall (fun customer_json => json_loads B customer_json = Raises ValueError)
    lines ->
  main files B py_lt py_format
  = (Printed ("No customers within " ++ format_float B RANGE_IN_KM ++ " km."),
     map (fun customer_json => Warned (ParseError customer_json)) lines).
Proof.
  intros Hfile Hlines. unfold main, get_file_contents. rewrite Hfile.
  unfold parse_customer_data.
  rewrite (parse_each_undecodable_lines Hlines). cbn [app].
  cbn. now rewrite map_map.
Qed.

(** X20. When customers.json opens, no line can make parsing raise, and
    [distance] returns for the customer of every valid line, [main] goes
    on to format those of these customers that are in range: it prints
    the text that [format_customers] returns for them, or, when [format]
    raises on one of them, ends with that exception and prints nothing;
    and every line has given a customer or one warning. *)
Theorem main_prints_report (lines : list string) :
  files INPUT_FILE = Some lines ->
  Forall (harmless_line B) lines ->
  Forall (has_distance B) (customers_of_lines B lines) ->
  exists warnings,
    main files B py_lt py_format
    = (match format_customers py_lt py_format py_format B
               (filter (in_range B) (customers_of_lines B lines)) with
       | Returns text => Printed text
       | Raises e => Uncaught e
       end,
       map Warned warnings) /\
    length (customers_of_lines B lines) + length warnings = length lines.
Proof.
  intros Hfile Hlines Hdist. unfold main, get_file_contents. rewrite Hfile.
  destruct (@parse_each_plain B lines Hlines [] [])
    as (customers & warnings & Hparse & _).
  unfold parse_customer_data. rewrite Hparse.
  apply parse_each_returns in Hparse.
  destruct Hparse as (added & -> & -> & Hlen). cbn [app] in *.
  unfold get_customers_in_range.
  rewrite (keep_in_range_filter [] Hdist). cbn [app].
  exists added. split; [|exact Hlen].
  destruct (format_customers py_lt py_format py_format B
              (filter (in_range B) (customers_of_lines B lines)));
    reflexivity.
Qed.

End MainFacts.

(** ** The theorems at the sample data *)

Example test_validate_customer_invalid_latitude :
  validate_customer demo_builtins dany_record []
  = (Returns false, [BadLatitude (PUnicode "invalid")]).
Proof. reflexivity. Qed.

Example test_parse_customer_data_with_valid_and_invalid_customers :
  parse_customer_data demo_builtins [jack_line; EmptyString] []
  = (Returns [jack], [ParseError EmptyString]).
Proof. reflexivity. Qed.

Example main_prints_jack :
  main (one_file [jack_line; EmptyString]) demo_builtins demo_lt demo_format
  = (Printed "1: Handsome Jack", [Warned (ParseError EmptyString)]).
Proof. reflexivity. Qed.

(** With a customer in range whose name is not ASCII the program prints
    nothing. *)
Example main_dies_of_a_name :
  main (one_file [jack_line; sean_line]) demo_builtins demo_lt demo_format
  = (Uncaught UnicodeEncodeError, []).
Proof. reflexivity. Qed.

(** [validate_customer] on a string that is not ASCII, as [json.loads]
    returns for a line that holds a JSON string. *)
Example validate_customer_non_ascii_string (B : builtins) :
  validate_customer B (PUnicode ("Se" ++ String (ascii_of_nat 225) "n")) []
  = (Raises UnicodeEncodeError, []).
Proof. reflexivity. Qed.

Lemma demo_lines_harmless :
  Forall (harmless_line demo_builtins) [jack_line; EmptyString].
Proof.
  repeat constructor.
  intros key value [->| ->] [= <-]; exact I.
Defined.

Lemma demo_parse :
  parse_customer_data demo_builtins [jack_line; EmptyString] []
  = (Returns [jack], [ParseError EmptyString]).
Proof. reflexivity. Defined.

Lemma demo_filter :
  get_customers_in_range demo_builtins [jack] = Returns [jack].
Proof. reflexivity. Defined.

Lemma validate_customer_missing_keys_witness :
  exists missing_keys,
    validate_customer demo_builtins hodor_record []
    = (Returns false, [MissingKeys hodor_record missing_keys]) /\
    forall k,
      In k missing_keys <->
      In k EXPECTED_KEYS /\ lookup k [("name", PUnicode "Hodor")] = None.
Proof.
  apply (@validate_customer_missing_keys demo_builtins
           [("name", PUnicode "Hodor")] [] "user_id").
  - right. now left.
  - reflexivity.
Defined.

Lemma validate_customer_latitude_first_witness :
  validate_customer demo_builtins dany_record []
  = (Returns false, [BadLatitude (PUnicode "invalid")]).
Proof.
  apply (proj1 (@validate_customer_latitude_first demo_builtins
                  [("name", PUnicode "Dany Targaryen"); ("user_id", PInt 1);
                   ("longitude", PUnicode "invalid");
                   ("latitude", PUnicode "invalid")]
                  [] (PUnicode "Dany Targaryen") (PInt 1)
                  (PUnicode "invalid") (PUnicode "invalid")
                  eq_refl eq_refl eq_refl eq_refl)).
  reflexivity.
Defined.

Lemma validate_customer_then_build_witness :
  exists c lat lon,
    build_customer demo_builtins jack_record = Returns c /\
    getitem jack_record "name" = Returns (name c) /\
    getitem jack_record "user_id" = Returns (user_id c) /\
    getitem jack_record "latitude" = Returns lat /\
    py_float demo_builtins lat = Returns (latitude (location c)) /\
    getitem jack_record "longitude" = Returns lon /\
    py_float demo_builtins lon = Returns (longitude (location c)).
Proof.
  apply (@validate_customer_then_build demo_builtins jack_record [] []).
  reflexivity.
Defined.

Lemma parse_customer_data_result_witness :
  [jack] = customers_of_lines demo_builtins [jack_line; EmptyString] /\
  forall customer,
    In customer [jack] <->
    exists customer_json,
      In customer_json [jack_line; EmptyString] /\
      customer_of_line demo_builtins customer_json = Some customer.
Proof. apply (parse_customer_data_result _ _ _ demo_parse). Defined.

Lemma parse_customer_data_accounts_witness :
  exists added,
    [ParseError EmptyString] = ([] ++ added)%list /\
    length [jack] + length added = length [jack_line; EmptyString].
Proof. apply (parse_customer_data_accounts _ _ _ demo_parse). Defined.

Lemma parse_customer_data_harmless_witness :
  exists customers log',
    parse_customer_data demo_builtins [jack_line; EmptyString] []
    = (Returns customers, log').
Proof. apply parse_customer_data_harmless. exact demo_lines_harmless. Defined.

Lemma get_customers_in_range_idempotent_witness :
  get_customers_in_range demo_builtins [jack] = Returns [jack].
Proof.
  apply (@get_customers_in_range_idempotent pyjson pyjson demo_builtins
           [jack] [jack] demo_filter).
Defined.

Lemma get_customers_in_range_threshold_witness :
  (distance coarse_builtins (location hundred_km_north) DUBLIN_OFFICE
   = Returns RANGE_IN_KM /\
   In hundred_km_north [jack; hundred_km_north]) /\
  (distance coarse_builtins (location nowhere) DUBLIN_OFFICE = Returns nan /\
   ~ In nowhere [jack; hundred_km_north]).
Proof.
  assert (Hout : get_customers_in_range coarse_builtins
                   [jack; nowhere; hundred_km_north]
                 = Returns [jack; hundred_km_north])
    by reflexivity.
  split; (split; [reflexivity|]).
  - apply (proj1 (@get_customers_in_range_threshold _ _ coarse_builtins
                    [jack; nowhere; hundred_km_north]
                    [jack; hundred_km_north] hundred_km_north RANGE_IN_KM
                    Hout (or_intror (or_intror (or_introl eq_refl)))
                    eq_refl)).
    reflexivity.
  - apply (proj2 (@get_customers_in_range_threshold _ _ coarse_builtins
                    [jack; nowhere; hundred_km_north]
                    [jack; hundred_km_north] nowhere nan
                    Hout (or_intror (or_introl eq_refl)) eq_refl)).
    reflexivity.
Defined.

Lemma all_keys_in_any_order_witness :
  all_keys_in EXPECTED_KEYS jack_record
  = all_keys_in ["longitude"; "latitude"; "user_id"; "name"] jack_record.
Proof.
  apply all_keys_in_any_order.
  change EXPECTED_KEYS
    with (rev ["longitude"; "latitude"; "user_id"; "name"]).
  apply Permutation_sym, Permutation_rev.
Defined.

Lemma main_nothing_decodes_witness :
  main (one_file [EmptyString; "Hodor"]) demo_builtins demo_lt demo_format
  = (Printed "No customers within 100.0 km.",
     [Warned (ParseError EmptyString); Warned (ParseError "Hodor")]).
Proof.
  apply (@main_nothing_decodes (one_file [EmptyString; "Hodor"])
           demo_builtins demo_lt demo_format [EmptyString; "Hodor"]).
  - reflexivity.
  - repeat constructor.
Defined.

Lemma main_prints_report_witness :
  exists warnings,
    main (one_file [jack_line; EmptyString]) demo_builtins demo_lt
      demo_format
    = (match format_customers demo_lt demo_format demo_format demo_builtins
               (filter (in_range demo_builtins)
                  (customers_of_lines demo_builtins
                     [jack_line; EmptyString])) with
       | Returns text => Printed text
       | Raises e => Uncaught e
       end,
       map Warned warnings) /\
    length (customers_of_lines demo_builtins [jack_line; EmptyString])
    + length warnings = length [jack_line; EmptyString].
Proof.
  apply main_prints_report.
  - reflexivity.
  - exact demo_lines_harmless.
  - repeat constructor. exists 0%float. reflexivity.
Defined.

End ProgramFacts.
